(** * Emotional-portrayal corpus tools: metadata extractor and table merger

    A shallow embedding of [src/data/process_database.py] and
    [src/tag_data/merge_predictions.py], and the properties of the two
    scripts that the corpus documentation relies on.

    Conventions of the embedding.
    - A Python [str] is a [string] of 8-bit characters, so the development
      covers the texts whose code points are below 256.  On that range
      [\d] is exactly the class [0-9] and [int] reads exactly those digits.
    - A function that can raise returns a [result]; [Raise e] is the
      exception leaving the function.
    - [print] appends a line to an output log that is threaded through the
      extractor.
    - [re], [pathlib] and [pandas] are libraries: the calls that the two
      scripts make are modelled after their behaviour (POSIX paths and
      error numbers, [pathlib] of CPython 3.11, pandas 2), in modules of
      their own.
    - The file system answers [os.stat] and [open] for each name, with
      success or with an [OSError]; the listing of a directory that is
      there does not fail. *)

From Stdlib Require Import ZArith Lia Ascii.
From stdpp Require Import base option list gmap strings sorting pretty.

Local Open Scope Z_scope.

(** ** Exceptions and results *)

Inductive exn :=
| TypeError
| ValueError
| FileNotFoundError
| OSError (errno : Z)              (* also its subclasses by [errno]: 13 is [PermissionError] *)
| KeyError (labels : list string)
| MergeError.

Inductive result (A : Type) :=
| Ok (a : A)
| Raise (e : exn).
Arguments Ok {A} a.
Arguments Raise {A} e.

Global Instance result_ret : MRet result := fun A a => Ok a.

Global Instance result_bind : MBind result := fun A B k r =>
  match r with
  | Ok a => k a
  | Raise e => Raise e
  end.

(** ** The part of [re] that the file-name pattern uses *)

Module Re.

Inductive regex :=
| Str (w : string)                 (* literal characters, also [\.] *)
| Digit                            (* [\d] *)
| OneOf (cs : list ascii)          (* [[MF]] *)
| Cat (r1 r2 : regex)
| Alt (r1 r2 : regex)              (* [r1|r2], [r1] tried first *)
| Repeat (n : nat) (r : regex)     (* [r{n}] *)
| Plus (r : regex)                 (* [r+], greedy *)
| Group (i : nat) (r : regex).     (* the [i]-th capturing group *)

(** The matcher's state: the text still to read, and the groups captured
    so far. *)
Definition state : Type := string * gmap nat string.

Definition is_digit (c : ascii) : bool := bool_decide (is_Some (Ascii.is_nat c)).

Definition read (ok : ascii → bool) (st : state) : list state :=
  match st.1 with
  | String c s => if ok c then [(s, st.2)] else []
  | EmptyString => []
  end.

Fixpoint strip_prefix (w s : string) : option string :=
  match w, s with
  | EmptyString, _ => Some s
  | String c w', String c' s' => if decide (c' = c) then strip_prefix w' s' else None
  | String _ _, EmptyString => None
  end.

Fixpoint repeat_n (step : state → list state) (n : nat) (st : state) : list state :=
  match n with
  | O => [st]
  | S n' => step st ≫= repeat_n step n'
  end.

(** Greedy repetition: after one more [step], first every way of going
    on, then stopping here.  A step of the pattern below reads one
    character, so the length of the text bounds the iterations. *)
Fixpoint plus_fuel (step : state → list state) (fuel : nat) (st : state) : list state :=
  match fuel with
  | O => []
  | S fuel' => step st ≫= (fun st' => plus_fuel step fuel' st' ++ [st'])
  end.

Definition consumed (s s' : string) : string :=
  String.substring 0 (String.length s - String.length s') s.

(** All the ways [r] matches at the start of the text, in the order a
    backtracking matcher tries them. *)
Fixpoint exec (r : regex) (st : state) : list state :=
  match r with
  | Str w => match strip_prefix w st.1 with Some s => [(s, st.2)] | None => [] end
  | Digit => read is_digit st
  | OneOf cs => read (fun c' => bool_decide (c' ∈ cs)) st
  | Cat r1 r2 => exec r1 st ≫= exec r2
  | Alt r1 r2 => exec r1 st ++ exec r2 st
  | Repeat n r => repeat_n (exec r) n st
  | Plus r => plus_fuel (exec r) (S (String.length st.1)) st
  | Group i r =>
      (fun st' : state => (st'.1, <[i := consumed st.1 st'.1]> st'.2)) <$> exec r st
  end.

(** [re.match]: the first way the pattern matches at the start of the
    text; nothing is asked of the text after the match. *)
Definition re_match (pattern : regex) (s : string) : option (gmap nat string) :=
  snd <$> head (exec pattern (s, ∅)).

(** [match.group(i)]; [None] is Python's [None]. *)
Definition group (m : gmap nat string) (i : nat) : option string := m !! i.

End Re.

(** ** Built-ins *)

Fixpoint digits_value (acc : Z) (s : string) : option Z :=
  match s with
  | EmptyString => Some acc
  | String c s' =>
      match Ascii.is_nat c with
      | Some d => digits_value (10 * acc + Z.of_nat d) s'
      | None => None
      end
  end.

(** [int(v)] for [v] a text of decimal digits (what a [\d{4}] group holds)
    or [None]; a text that is empty or has another character is a
    [ValueError] here. *)
Definition int (v : option string) : result Z :=
  match v with
  | None => Raise TypeError
  | Some EmptyString => Raise ValueError
  | Some s => match digits_value 0 s with Some z => Ok z | None => Raise ValueError end
  end.

(** How an f-string renders a value that is a text or [None]. *)
Definition fstr (v : option string) : string := default "None" v.

(** ** [parse_filename] *)

(** [r"G_(\d{4})_([MF])_(\d+)_st\.(WAV|wav)"] *)
Definition pattern : Re.regex :=
  Re.Cat (Re.Str "G_")
 (Re.Cat (Re.Group 1 (Re.Repeat 4 Re.Digit))
 (Re.Cat (Re.Str "_")
 (Re.Cat (Re.Group 2 (Re.OneOf ["M"; "F"]%char))
 (Re.Cat (Re.Str "_")
 (Re.Cat (Re.Group 3 (Re.Plus Re.Digit))
 (Re.Cat (Re.Str "_st.")
         (Re.Group 4 (Re.Alt (Re.Str "WAV") (Re.Str "wav"))))))))).

Definition parsed : Type := option string * option string * option Z * option Z.

Definition parse_filename (filename : string) : result parsed :=
  match Re.re_match pattern filename with
  | None => Ok (None, None, None, None)
  | Some m =>
      birth_year ← int (Re.group m 1);
      let gender_code := Re.group m 2 in
      let id_number := Re.group m 3 in
      let speaker := fstr gender_code +:+ "_" +:+ fstr id_number in
      let gender := if decide (gender_code = Some "M") then "male" else "female" in
      let current_year := 2025 in
      let age := current_year - birth_year in
      Ok (Some speaker, Some gender, Some age, Some birth_year)
  end.

(** ** Texts *)

Definition endswith (s suffix : string) : bool :=
  bool_decide (String.substring (String.length s - String.length suffix)
                 (String.length suffix) s = suffix
               ∧ (String.length suffix ≤ String.length s)%nat).

(** [str.isspace] on the code points below 256. *)
Definition isspace (c : ascii) : bool :=
  let n := nat_of_ascii c in
  bool_decide ((9 ≤ n ≤ 13)%nat ∨ (28 ≤ n ≤ 32)%nat ∨ n = 133%nat ∨ n = 160%nat).

Fixpoint lstrip (s : string) : string :=
  match s with
  | String c s' => if isspace c then lstrip s' else s
  | EmptyString => EmptyString
  end.

(** [str.strip()] *)
Definition strip (s : string) : string :=
  String.rev (lstrip (String.rev (lstrip s))).

(** [s.rfind(c)]; [None] is Python's -1. *)
Fixpoint rfind (c : ascii) (s : string) : option nat :=
  match s with
  | EmptyString => None
  | String c' s' =>
      match rfind c s' with
      | Some i => Some (S i)
      | None => if decide (c' = c) then Some O else None
      end
  end.

(** ** The part of [pathlib] that the extractor uses *)

Module Pathlib.

(** A POSIX path: its root ([""] or ["/"]) and its components. *)
Record Path := mkPath { root : string; parts : list string }.

Definition join (sep : string) (l : list string) : string := String.concat sep l.

(** [str(p)] *)
Definition str (p : Path) : string :=
  match parts p with
  | [] => if decide (root p = "") then "." else root p
  | _ => root p +:+ join "/" (parts p)
  end.

(** [p.name] *)
Definition name (p : Path) : string := default "" (last (parts p)).

(** [p.parent] *)
Definition parent (p : Path) : Path :=
  mkPath (root p) (removelast (parts p)).

(** [p / entry] for an entry of the directory [p] *)
Definition child (p : Path) (entry : string) : Path :=
  mkPath (root p) (parts p ++ [entry]).

(** The suffix of a final component: from its last dot on, unless
    that dot comes first or last. *)
Definition suffix_of (name : string) : string :=
  match rfind "." name with
  | Some i =>
      if decide (0 < i < String.length name - 1)%nat
      then String.substring i (String.length name - i) name
      else ""
  | None => ""
  end.

(** [p.suffix] *)
Definition suffix (p : Path) : string := suffix_of (name p).

(** The final component that [with_suffix] builds. *)
Definition with_suffix_name (name suffix' : string) : string :=
  let old_suffix := suffix_of name in
  if decide (old_suffix = "") then name +:+ suffix'
  else String.substring 0 (String.length name - String.length old_suffix) name
         +:+ suffix'.

(** [p.with_suffix(suffix)] for a suffix that is a dot and a word *)
Definition with_suffix (p : Path) (suffix' : string) : result Path :=
  if decide (name p = "") then Raise ValueError
  else Ok (mkPath (root p) (removelast (parts p) ++ [with_suffix_name (name p) suffix'])).

Fixpoint strip_parts (other l : list string) : option (list string) :=
  match other, l with
  | [], _ => Some l
  | x :: other', y :: l' => if decide (x = y) then strip_parts other' l' else None
  | _ :: _, [] => None
  end.

(** [p.relative_to(other)] *)
Definition relative_to (p other : Path) : result Path :=
  if decide (root p = root other) then
    match strip_parts (parts other) (parts p) with
    | Some l => Ok (mkPath "" l)
    | None => Raise ValueError
    end
  else Raise ValueError.

End Pathlib.

(** ** The file system as the extractor sees it *)

(** An entry of the scanned directory, as [os.stat] and
    [open(...).read()] find it: a text; an entry that is there and on
    which [open] or [read] fails, with the message of the exception (no
    permission on the file, wrong encoding, a directory, ...); or a name
    that cannot be examined, on which [os.stat] and [open] fail with an
    [OSError] of that [errno] and message (13, [EACCES], for every name
    in a directory that may be listed but not searched). *)
Inductive node :=
| Readable (content : string)
| Unreadable (message : string)
| Inaccessible (errno : Z) (message : string).

(** The scanned path: [os.stat] fails on it with an [errno] (2,
    [ENOENT], when nothing is there), or it is there, with its entries
    by name (none when it is not a directory, or a directory that may
    not be listed: [glob] yields nothing then). *)
Inductive folder :=
| NoStat (errno : Z)
| Dir (entries : gmap string node).

Definition ENOENT : Z := 2.
Definition EBADF : Z := 9.
Definition EACCES : Z := 13.
Definition ENOTDIR : Z := 20.
Definition ELOOP : Z := 40.

(** The errors of [os.stat] that [pathlib] takes for "not there". *)
Definition _IGNORED_ERRNOS : list Z := [ENOENT; ENOTDIR; EBADF; ELOOP].

(** [os.stat] on a name of the directory. *)
Definition stat (d : gmap string node) (name : string) : result unit :=
  match d !! name with
  | None => Raise (OSError ENOENT)
  | Some (Inaccessible errno _) => Raise (OSError errno)
  | Some _ => Ok tt
  end.

(** [p.exists()], from the outcome of [p.stat()]: an [OSError] outside
    [_IGNORED_ERRNOS] is raised again. *)
Definition exists_ (st : result unit) : result bool :=
  match st with
  | Ok _ => Ok true
  | Raise (OSError errno) =>
      if decide (errno ∈ _IGNORED_ERRNOS) then Ok false else Raise (OSError errno)
  | Raise ValueError => Ok false
  | Raise e => Raise e
  end.

(** ** Output log *)

(** A computation that prints and may raise: the log so far goes in, the
    result and the log come out; what was printed before an exception
    stays printed. *)
Definition M (A : Type) : Type := list string → result A * list string.

Global Instance M_ret : MRet M := fun A a out => (Ok a, out).

Global Instance M_bind : MBind M := fun A B k m out =>
  match m out with
  | (Ok a, out') => k a out'
  | (Raise e, out') => (Raise e, out')
  end.

Definition lift {A : Type} (r : result A) : M A := fun out => (r, out).

Definition print (line : string) : M unit := fun out => (Ok tt, out ++ [line]).

(** ** The part of [pandas] that the two scripts use *)

Module Pandas.

(** A table: the index ([None] is the default row numbering, else the
    index name and its values), the column labels, and the rows, each
    with one cell per column. *)
Record DataFrame (V : Type) := mkDF {
  index : option (string * list V);
  columns : list string;
  rows : list (list V)
}.
Arguments mkDF {V} index columns rows.
Arguments index {V} d.
Arguments columns {V} d.
Arguments rows {V} d.

(** [df.shape] *)
Definition shape {V : Type} (df : DataFrame V) : nat * nat :=
  (length (rows df), length (columns df)).

(** The tables that [read_csv] and the operations below build: distinct
    column labels, and rows and index as long as they must be. *)
Definition wf {V : Type} (df : DataFrame V) : Prop :=
  NoDup (columns df)
  ∧ Forall (fun r => length r = length (columns df)) (rows df)
  ∧ (∀ ix, index df = Some ix → length ix.2 = length (rows df)).

Fixpoint col_index (c : string) (cols : list string) : option nat :=
  match cols with
  | [] => None
  | c' :: cols' => if decide (c' = c) then Some O else S <$> col_index c cols'
  end.

Section Ops.
Context {V : Type} (nan : V).

(** The cell of row [r] under the label [c]. *)
Definition cell (cols : list string) (r : list V) (c : string) : V :=
  default nan (col_index c cols ≫= fun i => r !! i).

(** A record is a [dict] from labels to cells, in insertion order. *)
Fixpoint dict_get (c : string) (record : list (string * V)) : option V :=
  match record with
  | [] => None
  | (k, v) :: record' => if decide (k = c) then Some v else dict_get c record'
  end.

(** The labels of all records, each once, in the order they first
    appear. *)
Definition union_keys (records : list (list (string * V))) : list string :=
  foldl (fun acc k => if decide (k ∈ acc) then acc else acc ++ [k]) []
        (records ≫= fmap fst).

(** [pd.DataFrame(records)] for a list of dicts; an empty list gives
    a table without columns. *)
Definition of_records (records : list (list (string * V))) : DataFrame V :=
  let cols := union_keys records in
  mkDF None cols
       ((fun record => (fun c => default nan (dict_get c record)) <$> cols)
          <$> records).

(** [df[c] = v] for a scalar [v] *)
Definition setitem_scalar (df : DataFrame V) (c : string) (v : V) : DataFrame V :=
  match col_index c (columns df) with
  | Some i => mkDF (index df) (columns df) ((fun r => <[i := v]> r) <$> rows df)
  | None => mkDF (index df) (columns df ++ [c]) ((fun r => r ++ [v]) <$> rows df)
  end.

(** [df[cols]] for a list of labels: a [KeyError] names the labels
    that the table does not have. *)
Definition getitem (df : DataFrame V) (cols : list string) : result (DataFrame V) :=
  match filter (fun c => c ∉ columns df) cols with
  | [] => Ok (mkDF (index df) cols
                   ((fun r => cell (columns df) r <$> cols) <$> rows df))
  | missing => Raise (KeyError missing)
  end.

(** [df.set_index(c)] *)
Definition set_index (df : DataFrame V) (c : string) : result (DataFrame V) :=
  match col_index c (columns df) with
  | Some i =>
      Ok (mkDF (Some (c, (fun r => cell (columns df) r c) <$> rows df))
               (delete i (columns df))
               (delete i <$> rows df))
  | None => Raise (KeyError [c])
  end.

(** *** [pd.merge(left, right, on=keys, how="inner")]

    For tables that [read_csv] loaded, with distinct column labels,
    whose key columns hold values of one type [V] with the equality that
    pandas joins on (a missing value equals a missing value). A key that
    a side lacks is a [KeyError]. Then the dtypes of the key columns are
    compared, see [key_dtypes_ok]. The result has the columns of the
    left table and then those of the right table that are not keys, and
    one row for every pair of a left and a right row with the same key
    tuple, in the order of the left rows. *)

Definition key_tuple (cols keys : list string) (r : list V) : list V :=
  cell cols r <$> keys.

(** The labels that both sides have outside the keys get a suffix,
    [_x] on the left and [_y] on the right. *)
Definition renamer (to_rename : list string) (suffix : string) (c : string) : string :=
  if decide (c ∈ to_rename) then c +:+ suffix else c.

(** Besides its cells a column has a dtype, of a type [D]: what
    [read_csv] found the column to hold ([int64], [float64], [bool],
    [object] for texts). [pd.merge] accepts a key whose two columns have
    the same dtype, or different dtypes that it can bring together, which
    [coercible] tells ([int64] and [float64], say); for the others, as a
    column of numbers against a column of texts, it raises a
    [ValueError]. *)
Definition key_dtypes_ok {D : Type} (coercible : D → D → bool)
    (ldtype rdtype : string → D) (k : string) : Prop :=
  ldtype k = rdtype k ∨ coercible (ldtype k) (rdtype k).

(** The dtypes are compared when both tables have rows: with rows on
    one side only pandas does not compare them, and with no row on both
    sides all columns are [object] columns, as [read_csv] loads a table
    without rows. *)
Definition merge `{EqDecision V} {D : Type} `{EqDecision D}
    (coercible : D → D → bool) (ldtype rdtype : string → D)
    (left right : DataFrame V) (keys : list string) : result (DataFrame V) :=
  match filter (fun k => k ∉ columns right ∨ k ∉ columns left) keys with
  | k :: _ => Raise (KeyError [k])
  | [] =>
      if decide (rows left ≠ [] ∧ rows right ≠ []
                 ∧ ¬ Forall (key_dtypes_ok coercible ldtype rdtype) keys)
      then Raise ValueError
      else
        let rest := filter (fun c => c ∉ keys) (columns right) in
        let to_rename := filter (fun c => c ∈ rest) (columns left) in
        let llabels := renamer to_rename "_x" <$> columns left in
        let rlabels := renamer to_rename "_y" <$> rest in
        if decide (NoDup llabels ∧ NoDup rlabels) then
          Ok (mkDF None (llabels ++ rlabels)
                (l ← rows left;
                 r ← filter (fun r => key_tuple (columns left) keys l
                                      = key_tuple (columns right) keys r)
                            (rows right);
                 [l ++ (cell (columns right) r <$> rest)]))
        else Raise MergeError
  end.

End Ops.

End Pandas.

(** ** [process_database.py] *)

Import Pathlib Pandas.

(** What a cell of the extractor's table holds. *)
Inductive value :=
| VNone
| VStr (s : string)
| VInt (z : Z).

Definition of_str (v : option string) : value :=
  match v with Some s => VStr s | None => VNone end.

Definition of_int (v : option Z) : value :=
  match v with Some z => VInt z | None => VNone end.

(** [os.listdir]: the names of the entries, in no particular order. *)
Definition listdir (d : gmap string node) : list string := (map_to_list d).*1.

(** [data_path.glob("*" + suffix)], by entry name: the names that end
    with the suffix, in the same letter case. *)
Definition glob (d : gmap string node) (suffix : string) : list string :=
  filter (fun name => endswith name suffix) (listdir d).

(** [sorted] on the paths of one directory orders them by name. *)
Definition sorted (names : list string) : list string := merge_sort String.le names.

Definition read_transcription (d : gmap string node) (txt_path : Path) : M string :=
  let warn e := print ("Warning: Could not read " +:+ str txt_path +:+ ": " +:+ e) in
  match d !! name txt_path with
  | Some (Readable content) => mret (strip content)
  | Some (Unreadable e) => warn e;; mret ""
  | Some (Inaccessible _ e) => warn e;; mret ""
  | None =>
      warn ("[Errno 2] No such file or directory: '" +:+ str txt_path +:+ "'");;
      mret ""
  end.

Definition record : Type := list (string * value).

(** The body of [for audio_file in sorted(audio_files)], with [records]
    as the list built so far. *)
Fixpoint loop (data_path : Path) (d : gmap string node)
    (files : list string) (records : list record) : M (list record) :=
  match files with
  | [] => mret records
  | filename :: files' =>
      let audio_file := child data_path filename in
      p ← lift (parse_filename filename);
      let '(speaker, gender, age, birth_year) := p in
      match speaker with
      | None =>
          print ("Warning: Could not parse filename: " +:+ filename);;
          loop data_path d files' records
      | Some _ =>
          txt_file ← lift (with_suffix audio_file ".txt");
          found ← lift (exists_ (stat d (name txt_file)));
          transcription ←
            (if found : bool
             then read_transcription d txt_file
             else print ("Warning: No transcription file found for " +:+ filename);;
                  mret "");
          file ← lift (relative_to audio_file (parent data_path));
          let record :=
            [ ("file", VStr (str file));
              ("speaker", of_str speaker);
              ("gender", of_str gender);
              ("age", of_int age);
              ("birth_year", of_int birth_year);
              ("transcription", VStr transcription) ] in
          loop data_path d files' (records ++ [record])
      end
  end.

Definition column_order : list string :=
  ["file"; "speaker"; "gender"; "age"; "birth_year"; "emotion"; "transcription"].

Definition process_database (data_path : Path) (fs : folder) : M (DataFrame value) :=
  match fs with
  | NoStat errno =>
      (* [data_path.exists()] raises or is false *)
      lift (exists_ (Raise (OSError errno)));;
      lift (Raise FileNotFoundError)
  | Dir d =>
      let audio_files := glob d ".WAV" ++ glob d ".wav" in
      print ("Found " +:+ pretty (length audio_files) +:+ " audio files");;
      records ← loop data_path d (sorted audio_files) [];
      let df := of_records VNone records in
      let df := setitem_scalar df "emotion" (VStr "unknown") in
      df ← lift (getitem VNone df column_order);
      df ← lift (set_index VNone df "file");
      mret df
  end.

(** ** [merge_predictions.py] *)

Definition common_cols : list string :=
  ["file"; "start"; "end"; "speaker"; "gender"; "age"; "birth_year";
   "duration"; "emotion"; "text"].

Section Merger.
(** The cells of the two tables, with the equality that [pd.merge]
    uses on keys, and the dtypes of their columns. *)
Context {V : Type} `{EqDecision V} (nan : V).
Context {D : Type} `{EqDecision D} (coercible : D → D → bool).

Definition unique_cols (df : DataFrame V) : list string :=
  filter (fun col => col ∉ common_cols) (columns df).

(** The script from the two tables as [read_csv] loaded them, each
    with the dtypes of its columns, to the table that [to_csv] writes;
    when it raises, nothing is written. Picking columns of [segmented]
    keeps their dtypes. *)
Definition merge_predictions (all_predicted_dtypes segmented_dtypes : string → D)
    (all_predicted segmented : DataFrame V) : result (DataFrame V) :=
  let all_predicted_unique := unique_cols all_predicted in
  let segmented_unique := unique_cols segmented in
  right ← getitem nan segmented (common_cols ++ segmented_unique);
  merged ← merge nan coercible all_predicted_dtypes segmented_dtypes
                 all_predicted right common_cols;
  Ok merged.

End Merger.

(** * Vocabulary of the properties *)

(** ** The file-name grammar, read off the pattern *)

Module Grammar.

Fixpoint all_digits (s : string) : bool :=
  match s with
  | EmptyString => true
  | String c s' => Re.is_digit c && all_digits s'
  end.

(** The text after a run of digits: empty, or starting with a character
    that is not a digit. *)
Definition no_digit_ahead (s : string) : Prop :=
  match s with
  | EmptyString => True
  | String c _ => ¬ Re.is_digit c
  end.

(** [G_<y>_<g>_<n>_st.<ext>] followed by [rest]. *)
Definition text (y : string) (g : ascii) (n ext rest : string) : string :=
  "G_" +:+ y +:+ "_" +:+ String g ("_" +:+ n +:+ "_st." +:+ ext +:+ rest).

Definition fields_ok (y : string) (g : ascii) (n ext : string) : Prop :=
  String.length y = 4%nat ∧ all_digits y ∧ g ∈ ["M"; "F"]%char
  ∧ n ≠ "" ∧ all_digits n ∧ ext ∈ ["WAV"; "wav"].

(** The four groups of a match. *)
Definition captures (y : string) (g : ascii) (n ext : string) : gmap nat string :=
  <[4%nat := ext]> (<[3%nat := n]> (<[2%nat := String g ""]> (<[1%nat := y]> ∅))).

(** The [gender] of a gender code. *)
Definition gender_of (g : ascii) : string :=
  if decide (g = "M"%char) then "male" else "female".

(** The file name is accepted by the grammar. *)
Definition accepted (filename : string) : Prop :=
  is_Some (Re.re_match pattern filename).

End Grammar.

(** ** What the extractor's loop does for one audio file *)

(** The keys of the dict that the loop builds for a file. *)
Definition record_keys : list string :=
  ["file"; "speaker"; "gender"; "age"; "birth_year"; "transcription"].

Section PerFile.
Variables (data_path : Path) (d : gmap string node).

Definition txt_name (filename : string) : string :=
  with_suffix_name filename ".txt".

Definition tail_part (ps : list string) : list string :=
  match last ps with Some p => [p] | None => [] end.

(** The [file] cell: the path of the audio file from the parent of the
    scanned directory. *)
Definition file_of (filename : string) : string :=
  str (mkPath "" (tail_part (parts data_path) ++ [filename])).

Definition transcription_of (filename : string) : string :=
  match d !! txt_name filename with
  | Some (Readable content) => strip content
  | _ => ""
  end.

Definition transcript_diag (filename : string) : list string :=
  match d !! txt_name filename with
  | Some (Readable _) => []
  | Some (Unreadable e) =>
      ["Warning: Could not read " +:+ str (child data_path (txt_name filename))
         +:+ ": " +:+ e]
  | _ => ["Warning: No transcription file found for " +:+ filename]
  end.

Definition diag_of (filename : string) : list string :=
  if decide (Grammar.accepted filename) then transcript_diag filename
  else ["Warning: Could not parse filename: " +:+ filename].

Definition fields_of (filename : string) : parsed :=
  match parse_filename filename with
  | Ok p => p
  | Raise _ => (None, None, None, None)
  end.

Definition record_of (filename : string) : record :=
  let '(speaker, gender, age, birth_year) := fields_of filename in
  [ ("file", VStr (file_of filename));
    ("speaker", of_str speaker);
    ("gender", of_str gender);
    ("age", of_int age);
    ("birth_year", of_int birth_year);
    ("transcription", VStr (transcription_of filename)) ].

(** The row of the finished table for an audio file. *)
Definition row_of (filename : string) : list value :=
  let '(speaker, gender, age, birth_year) := fields_of filename in
  [ of_str speaker; of_str gender; of_int age; of_int birth_year;
    VStr "unknown"; VStr (transcription_of filename) ].

(** The audio files in the order of the loop, and those it keeps. *)
Definition audio_files : list string := sorted (glob d ".WAV" ++ glob d ".wav").

Definition kept : list string := filter Grammar.accepted audio_files.

(** What stops the loop at an audio file: the exception that the
    existence test of its transcript raises. *)
Definition stat_error (filename : string) : option exn :=
  match exists_ (stat d (txt_name filename)) with
  | Raise e => Some e
  | Ok _ => None
  end.

(** The loop gets past the file: its name is not accepted, or the
    existence test of its transcript answers. *)
Definition passable (filename : string) : Prop :=
  Grammar.accepted filename → stat_error filename = None.

(** The existence test answers for the transcript of every audio file
    that the loop keeps. *)
Definition examinable : Prop := Forall (fun f => stat_error f = None) kept.

(** The table that the extractor returns when it returns one. *)
Definition table : DataFrame value :=
  mkDF (Some ("file", (fun f => VStr (file_of f)) <$> kept))
       ["speaker"; "gender"; "age"; "birth_year"; "emotion"; "transcription"]
       (row_of <$> kept).

End PerFile.

(** ** What the merger joins *)

Section Joined.
Context {V : Type} `{EqDecision V} (nan : V).

(** The key tuple of a row of a table. *)
Definition keys_of (df : DataFrame V) (r : list V) : list V :=
  key_tuple nan (columns df) common_cols r.

(** The cells of a row under the columns that are not keys. *)
Definition unique_of (df : DataFrame V) (r : list V) : list V :=
  cell nan (columns df) r <$> unique_cols df.

(** The inner join of the rows on the key tuple. *)
Definition joined_rows (A B : DataFrame V) : list (list V) :=
  l ← rows A;
  r ← filter (fun r => keys_of A l = keys_of B r) (rows B);
  [l ++ unique_of B r].

(** Both tables have every key column. *)
Definition has_keys (df : DataFrame V) : Prop := common_cols ⊆ columns df.

(** No column outside the keys is in both tables. *)
Definition unique_disjoint (A B : DataFrame V) : Prop :=
  ∀ c, c ∈ unique_cols A → c ∉ unique_cols B.

(** The dtypes of the key columns let [pd.merge] join the two tables:
    a table has no row, or every key has dtypes that go together. *)
Definition joinable {D : Type} (coercible : D → D → bool)
    (dtA dtB : string → D) (A B : DataFrame V) : Prop :=
  rows A = [] ∨ rows B = [] ∨ Forall (key_dtypes_ok coercible dtA dtB) common_cols.

End Joined.

(** ** Sample inputs *)

Module Sample.

(** The scanned directory of the scenarios: two recordings, one with a
    transcript, and two other entries. *)
Definition data : Path := mkPath "" ["data"].

Definition corpus : gmap string node :=
  list_to_map
    [ ("G_1991_M_26_st.WAV", Readable "");
      ("G_1991_M_26_st.txt", Readable "  hello world ");
      ("G_1988_F_07_st.wav", Readable "");
      ("random_file.WAV", Readable "");
      ("notes.md", Readable "x") ].

(** The same directory with a transcript that cannot be read. *)
Definition corpus_unreadable : gmap string node :=
  <["G_1988_F_07_st.txt" := Unreadable "[Errno 13] Permission denied"]> corpus.

(** The same directory when it may be listed but not searched: no
    name in it can be examined, be there an entry or not. *)
Definition denied (name : string) : node :=
  Inaccessible EACCES ("[Errno 13] Permission denied: 'data/" +:+ name +:+ "'").

Definition corpus_unsearchable : gmap string node :=
  list_to_map
    ((fun name => (name, denied name))
       <$> ["G_1991_M_26_st.WAV"; "G_1991_M_26_st.txt"; "G_1988_F_07_st.wav";
            "G_1988_F_07_st.txt"; "random_file.WAV"; "notes.md"]).

(** Two tables that describe the same two segments. *)
Definition linguistic : DataFrame Z :=
  mkDF None (common_cols ++ ["valence"])
       [ [1; 0; 5; 7; 1; 34; 1991; 5; 0; 11; 3];
         [1; 5; 9; 7; 1; 34; 1991; 4; 0; 12; 4] ].

Definition acoustic : DataFrame Z :=
  mkDF None (["arousal"] ++ common_cols)
       [ [8; 1; 0; 5; 7; 1; 34; 1991; 5; 0; 11];
         [9; 1; 5; 9; 7; 1; 34; 1991; 4; 0; 12] ].

(** The dtypes of such tables, by name, and the pairs of different
    dtypes that [pd.merge] joins on: all but [object] with [int64] or
    [float64]. *)
Definition numeric (dtype : string) : bool :=
  bool_decide (dtype ∈ ["int64"; "float64"]).

Definition coercible (a b : string) : bool :=
  negb ((bool_decide (a = "object") && numeric b)
        || (numeric a && bool_decide (b = "object"))).

(** Every column holds whole numbers. *)
Definition numbers : string → string := fun _ => "int64".

(** The [text] column holds texts. *)
Definition words : string → string :=
  fun c => if decide (c = "text") then "object" else "int64".

(** Two tables in which one segment is listed twice. *)
Definition linguistic_twice : DataFrame Z :=
  mkDF None (common_cols ++ ["valence"])
       [ [1; 0; 5; 7; 1; 34; 1991; 5; 0; 11; 3];
         [1; 0; 5; 7; 1; 34; 1991; 5; 0; 11; 4] ].

Definition acoustic_twice : DataFrame Z :=
  mkDF None (common_cols ++ ["arousal"])
       [ [1; 0; 5; 7; 1; 34; 1991; 5; 0; 11; 8];
         [1; 0; 5; 7; 1; 34; 1991; 5; 0; 11; 9] ].

(** A table without the [text] column. *)
Definition acoustic_no_text : DataFrame Z :=
  mkDF None ["file"; "start"; "end"; "speaker"; "gender"; "age"; "birth_year";
             "duration"; "emotion"; "arousal"]
       [ [1; 0; 5; 7; 1; 34; 1991; 5; 0; 8] ].

End Sample.

(** ** Vocabulary of the further properties *)

(** The audio files that the loop skips. *)
Definition skipped (d : gmap string node) : list string :=
  filter (fun f => ¬ Grammar.accepted f) (audio_files d).

(** The [file] cell is the file name after this prefix: the last
    component of the scanned path and a slash, or nothing for a path
    without components. *)
Definition file_prefix (data_path : Path) : string :=
  match last (parts data_path) with
  | Some dir => dir +:+ "/"
  | None => ""
  end.

(** The entries that the extractor looks at: by name, the audio files
    and the transcripts. *)
Definition relevant (name : string) : Prop :=
  endswith name ".WAV" ∨ endswith name ".wav" ∨ endswith name ".txt".

Fixpoint all_space (s : string) : bool :=
  match s with
  | EmptyString => true
  | String c s' => isspace c && all_space s'
  end.

(** ** Further sample tables *)

Module SampleTables.

(** Two tables that both have a column [score] besides the keys. *)
Definition left_score : DataFrame Z :=
  mkDF None (common_cols ++ ["score"]) [ [1; 0; 5; 7; 1; 34; 1991; 5; 0; 11; 3] ].

Definition right_score : DataFrame Z :=
  mkDF None (common_cols ++ ["score"; "arousal"])
       [ [1; 0; 5; 7; 1; 34; 1991; 5; 0; 11; 6; 8] ].

(** A table with the header of [Sample.acoustic] and no row. *)
Definition acoustic_empty : DataFrame Z := mkDF None (["arousal"] ++ common_cols) [].

(** A table without the [start] and [text] columns. *)
Definition linguistic_short : DataFrame Z :=
  mkDF None ["file"; "end"; "speaker"; "gender"; "age"; "birth_year";
             "duration"; "emotion"; "valence"]
       [ [1; 5; 7; 1; 34; 1991; 5; 0; 3] ].

End SampleTables.

(** * Properties *)

(** ** Texts *)

Lemma app_String c (w s : string) : String c w +:+ s = String c (w +:+ s).
Proof. reflexivity. Qed.

Lemma app_empty_l (s : string) : "" +:+ s = s.
Proof. reflexivity. Qed.

Lemma app_assoc' (a b c : string) : (a +:+ b) +:+ c = a +:+ b +:+ c.
Proof. induction a as [|x a IH]; [done|]. rewrite !app_String. by f_equal. Qed.

Lemma length_app' (a b : string) :
  String.length (a +:+ b) = (String.length a + String.length b)%nat.
Proof. induction a as [|x a IH]; [done|]. rewrite app_String. simpl. by f_equal. Qed.

Lemma substring_0_app (w s : string) :
  String.substring 0 (String.length w) (w +:+ s) = w.
Proof. induction w as [|x w IH]; [by destruct s|]. rewrite app_String. simpl. by f_equal. Qed.

Module ReFacts.
Import Re Grammar.

Lemma strip_prefix_app w s : strip_prefix w (w +:+ s) = Some s.
Proof.
  induction w as [|c w IH]; [by destruct s|].
  rewrite app_String. simpl. by rewrite decide_True.
Qed.

Lemma strip_prefix_Some w s s' : strip_prefix w s = Some s' → s = w +:+ s'.
Proof.
  revert s. induction w as [|c w IH]; intros [|c' s] H; simplify_eq/=; try done.
  case_decide; [|done]. subst. rewrite app_String. f_equal. by apply IH.
Qed.

Lemma consumed_app w s : consumed (w +:+ s) s = w.
Proof.
  unfold consumed. rewrite length_app'.
  replace (String.length w + String.length s - String.length s)%nat
    with (String.length w) by lia.
  apply substring_0_app.
Qed.

Lemma is_digit_value c : is_digit c → ∃ d : nat, Ascii.is_nat c = Some d ∧ (d < 10)%nat.
Proof.
  unfold is_digit. intros [d Hd]%bool_decide_unpack. exists d. split; [done|].
  destruct c as [[] [] [] [] [] [] [] []]; simplify_eq/=; lia.
Qed.

(** *** What one step of each construct reads *)

Lemma exec_Str_app w s g : exec (Str w) (w +:+ s, g) = [(s, g)].
Proof. simpl. by rewrite strip_prefix_app. Qed.

Lemma elem_of_exec_Str w st st' :
  st' ∈ exec (Str w) st → st.1 = w +:+ st'.1 ∧ st'.2 = st.2.
Proof.
  simpl. destruct (strip_prefix w st.1) as [s|] eqn:E; [|by intros ?%elem_of_nil].
  intros ->%list_elem_of_singleton. split; [by apply strip_prefix_Some|done].
Qed.

Lemma elem_of_read (ok : ascii → bool) st st' :
  st' ∈ read ok st → ∃ c, ok c ∧ st.1 = String c st'.1 ∧ st'.2 = st.2.
Proof.
  unfold read. destruct st.1 as [|c s]; [by intros ?%elem_of_nil|].
  destruct (ok c) eqn:E; [|by intros ?%elem_of_nil].
  intros ->%list_elem_of_singleton. exists c. by rewrite E.
Qed.

Lemma read_String (ok : ascii → bool) c s g : ok c → read ok (String c s, g) = [(s, g)].
Proof. unfold read. simpl. by intros ->%Is_true_true. Qed.

Lemma read_not (ok : ascii → bool) c s g : ¬ ok c → read ok (String c s, g) = [].
Proof. unfold read. simpl. by intros ->%negb_prop_intro%Is_true_true%negb_true_iff. Qed.

Lemma exec_Digit st : exec Digit st = read is_digit st.
Proof. reflexivity. Qed.

(** *** [\d{n}] *)

Lemma elem_of_repeat_digits n st st' :
  st' ∈ repeat_n (exec Digit) n st →
  ∃ w, String.length w = n ∧ all_digits w ∧ st.1 = w +:+ st'.1 ∧ st'.2 = st.2.
Proof.
  revert st. induction n as [|n IH]; intros st; simpl.
  - intros ->%list_elem_of_singleton. by exists "".
  - intros (st1 & Hrest & (c & Hc & Hs & Hg)%elem_of_read)%list_elem_of_bind.
    destruct (IH _ Hrest) as (w & Hlen & Hw & Hs1 & Hg1).
    exists (String c w). simpl. rewrite Hlen, app_String, <- Hs1.
    split; [done|]. split; [by apply andb_True|]. split; [done|congruence].
Qed.

Lemma repeat_digits_app n w s g :
  String.length w = n → all_digits w →
  repeat_n (exec Digit) n (w +:+ s, g) = [(s, g)].
Proof.
  intros <-. induction w as [|c w IH]; [done|].
  intros [Hc Hw]%andb_True. cbn [String.length repeat_n].
  rewrite app_String, exec_Digit, read_String, bind_singleton by done. by apply IH.
Qed.

(** *** [\d+] *)

Lemma elem_of_plus_digits fuel st st' :
  st' ∈ plus_fuel (exec Digit) fuel st →
  ∃ w, w ≠ "" ∧ all_digits w ∧ st.1 = w +:+ st'.1 ∧ st'.2 = st.2.
Proof.
  revert st. induction fuel as [|fuel IH]; intros st; simpl.
  { by intros ?%elem_of_nil. }
  intros (st1 & Hrest & (c & Hc & Hs & Hg)%elem_of_read)%list_elem_of_bind.
  apply elem_of_app in Hrest as [Hmore | ->%list_elem_of_singleton].
  - destruct (IH _ Hmore) as (w & _ & Hw & Hs1 & Hg1).
    exists (String c w). rewrite app_String, <- Hs1.
    split; [done|]. split; [by apply andb_True|]. split; [done|congruence].
  - exists (String c ""). split; [done|]. split; [by apply andb_True|]. done.
Qed.

Lemma plus_fuel_stuck fuel s g :
  no_digit_ahead s → plus_fuel (exec Digit) fuel (s, g) = [].
Proof.
  destruct fuel as [|fuel]; [done|]. cbn [plus_fuel].
  destruct s as [|c s]; [done|]. intros Hc. by rewrite exec_Digit, read_not.
Qed.

(** Greedy: the first way [\d+] matches reads the whole run of digits. *)
Lemma plus_digits_greedy fuel w s g :
  w ≠ "" → all_digits w → no_digit_ahead s → (String.length w ≤ fuel)%nat →
  ∃ l, plus_fuel (exec Digit) fuel (w +:+ s, g) = (s, g) :: l.
Proof.
  revert w. induction fuel as [|fuel IH]; intros [|c w] Hne Hw Hs Hlen;
    try done; cbn [String.length] in Hlen; [lia|].
  apply andb_True in Hw as [Hc Hw]. cbn [plus_fuel].
  rewrite app_String, exec_Digit, read_String, bind_singleton by done.
  destruct w as [|c' w].
  - rewrite app_empty_l, plus_fuel_stuck by done. by eexists.
  - destruct (IH (String c' w)) as [l ->]; [done|done|done|lia|].
    by eexists.
Qed.

Lemma exec_Cat r1 r2 st : exec (Cat r1 r2) st = exec r1 st ≫= exec r2.
Proof. reflexivity. Qed.

Lemma exec_Group i r st :
  exec (Group i r) st
  = (fun st' : state => (st'.1, <[i := consumed st.1 st'.1]> st'.2)) <$> exec r st.
Proof. reflexivity. Qed.

Lemma consumed_String c s : consumed (String c s) s = String c "".
Proof. apply (consumed_app (String c "")). Qed.

Lemma exec_Repeat n r st : exec (Repeat n r) st = repeat_n (exec r) n st.
Proof. reflexivity. Qed.

Lemma exec_Plus r st :
  exec (Plus r) st = plus_fuel (exec r) (S (String.length st.1)) st.
Proof. reflexivity. Qed.

Lemma exec_OneOf cs st :
  exec (OneOf cs) st = read (fun c' => bool_decide (c' ∈ cs)) st.
Proof. reflexivity. Qed.

Lemma exec_pattern_complete y g n ext rest :
  fields_ok y g n ext →
  head (exec pattern (text y g n ext rest, ∅)) = Some (rest, captures y g n ext).
Proof.
  intros (Hy & Hdy & Hg & Hn & Hdn & Hext). unfold pattern, text.
  rewrite exec_Cat, exec_Str_app, bind_singleton.
  rewrite exec_Cat, exec_Group, exec_Repeat.
  rewrite repeat_digits_app by done. rewrite list_fmap_singleton, bind_singleton.
  cbn [fst snd]. rewrite consumed_app.
  rewrite exec_Cat, exec_Str_app, bind_singleton.
  rewrite exec_Cat, exec_Group, exec_OneOf.
  rewrite read_String by (by apply (bool_decide_pack (g ∈ _))).
  rewrite list_fmap_singleton, bind_singleton. cbn [fst snd].
  rewrite consumed_String.
  rewrite exec_Cat, exec_Str_app, bind_singleton.
  rewrite exec_Cat, exec_Group, exec_Plus. cbn [fst snd].
  destruct (plus_digits_greedy (S (String.length (n +:+ "_st." +:+ ext +:+ rest)))
              n ("_st." +:+ ext +:+ rest) (<[2%nat:=String g ""]> (<[1%nat:=y]> ∅)))
    as [l Hl]; [done|done|change (¬ is_digit "_"); by vm_compute
               |rewrite length_app'; lia|].
  rewrite Hl, fmap_cons, bind_cons. cbn [fst snd]. rewrite consumed_app.
  rewrite exec_Cat, exec_Str_app, bind_singleton, exec_Group.
  assert (exec (Alt (Str "WAV") (Str "wav"))
            (ext +:+ rest, <[3%nat:=n]> (<[2%nat:=String g ""]> (<[1%nat:=y]> ∅)))
          = [(rest, <[3%nat:=n]> (<[2%nat:=String g ""]> (<[1%nat:=y]> ∅)))]) as ->.
  { apply elem_of_cons in Hext as [->|Hext]; [reflexivity|].
    apply list_elem_of_singleton in Hext as ->. reflexivity. }
  rewrite list_fmap_singleton. cbn [fst snd]. by rewrite consumed_app.
Qed.

Lemma elem_of_exec_Group i r st st' :
  st' ∈ exec (Group i r) st →
  ∃ s g, (s, g) ∈ exec r st ∧ st' = (s, <[i := consumed st.1 s]> g).
Proof.
  rewrite exec_Group. intros ([s g] & -> & Hin)%list_elem_of_fmap. eauto.
Qed.

Lemma elem_of_exec_Cat r1 r2 st st' :
  st' ∈ exec (Cat r1 r2) st → ∃ st1, st1 ∈ exec r1 st ∧ st' ∈ exec r2 st1.
Proof. rewrite exec_Cat. intros (st1 & ? & ?)%list_elem_of_bind. eauto. Qed.

Lemma elem_of_exec_Alt r1 r2 st st' :
  st' ∈ exec (Alt r1 r2) st → st' ∈ exec r1 st ∨ st' ∈ exec r2 st.
Proof. apply elem_of_app. Qed.

Lemma exec_pattern_sound s st' :
  st' ∈ exec pattern (s, ∅) →
  ∃ y g n ext,
    fields_ok y g n ext ∧ s = text y g n ext st'.1 ∧ st'.2 = captures y g n ext.
Proof.
  unfold pattern.
  intros ([s1 g1] & [Hs1 Hg1]%elem_of_exec_Str & H)%elem_of_exec_Cat.
  apply elem_of_exec_Cat in H as ([s2 g2] & H2 & H).
  apply elem_of_exec_Group in H2 as (s2' & g2' & H2 & [= -> ->]).
  rewrite exec_Repeat in H2.
  apply elem_of_repeat_digits in H2 as (y & Hy & Hdy & Hs2 & Hg2).
  apply elem_of_exec_Cat in H as ([s3 g3] & [Hs3 Hg3]%elem_of_exec_Str & H).
  apply elem_of_exec_Cat in H as ([s4 g4] & H4 & H).
  apply elem_of_exec_Group in H4 as (s4' & g4' & H4 & [= -> ->]).
  rewrite exec_OneOf in H4. apply elem_of_read in H4 as (g & Hg & Hs4 & Hg4).
  apply elem_of_exec_Cat in H as ([s5 g5] & [Hs5 Hg5]%elem_of_exec_Str & H).
  apply elem_of_exec_Cat in H as ([s6 g6] & H6 & H).
  apply elem_of_exec_Group in H6 as (s6' & g6' & H6 & [= -> ->]).
  rewrite exec_Plus in H6.
  apply elem_of_plus_digits in H6 as (n & Hn & Hdn & Hs6 & Hg6).
  apply elem_of_exec_Cat in H as ([s7 g7] & [Hs7 Hg7]%elem_of_exec_Str & H).
  apply elem_of_exec_Group in H as (s8 & g8 & H & ->).
  assert (∃ ext, ext ∈ ["WAV"; "wav"] ∧ s7 = ext +:+ s8 ∧ g8 = g7)
    as (ext & Hext & -> & ->).
  { apply elem_of_exec_Alt in H as [[??]%elem_of_exec_Str|[??]%elem_of_exec_Str];
      [exists "WAV"|exists "wav"]; split_and!; try done; set_solver. }
  simpl in *. subst. exists y, g, n, ext.
  split; [split_and!; try done; by apply bool_decide_unpack in Hg|].
  rewrite !consumed_app, consumed_String. done.
Qed.
End ReFacts.

(** ** [parse_filename] *)

Section ParseFilename.
Import Re Grammar ReFacts.

Lemma re_match_text y g n ext rest :
  fields_ok y g n ext →
  re_match pattern (text y g n ext rest) = Some (captures y g n ext).
Proof. intros H. unfold re_match. by rewrite exec_pattern_complete. Qed.

Lemma re_match_Some filename m :
  re_match pattern filename = Some m →
  ∃ y g n ext rest,
    fields_ok y g n ext ∧ filename = text y g n ext rest ∧ m = captures y g n ext.
Proof.
  unfold re_match. destruct (head _) as [[rest m']|] eqn:E; [|done].
  intros [= <-]. apply head_Some in E as [l E].
  destruct (exec_pattern_sound filename (rest, m')) as (y & g & n & ext & ? & ? & ?).
  { rewrite E. left. }
  exists y, g, n, ext, rest. done.
Qed.

Lemma digits_value_Some acc s :
  all_digits s → 0 ≤ acc → ∃ z, digits_value acc s = Some z ∧ 0 ≤ z.
Proof.
  revert acc. induction s as [|c s IH]; intros acc; simpl; [eauto|].
  intros [(k & -> & _)%is_digit_value Hs]%andb_True Hacc. apply IH; [done|lia].
Qed.

(** [int] succeeds on every non-empty text of digits. *)
Lemma int_digits s :
  all_digits s → s ≠ "" → ∃ z, int (Some s) = Ok z ∧ 0 ≤ z.
Proof.
  intros Hs Hne. destruct (digits_value_Some 0 s Hs) as (z & Hz & ?); [done|].
  exists z. destruct s; [done|]. unfold int. by rewrite Hz.
Qed.

Lemma group_captures y g n ext :
  group (captures y g n ext) 1 = Some y
  ∧ group (captures y g n ext) 2 = Some (String g "")
  ∧ group (captures y g n ext) 3 = Some n
  ∧ group (captures y g n ext) 4 = Some ext.
Proof. unfold group, captures. by simplify_map_eq. Qed.

Lemma parse_filename_text y g n ext rest :
  fields_ok y g n ext →
  ∃ birth_year,
    int (Some y) = Ok birth_year
    ∧ parse_filename (text y g n ext rest)
      = Ok (Some (String g "" +:+ "_" +:+ n), Some (gender_of g),
            Some (2025 - birth_year), Some birth_year).
Proof.
  intros H. pose proof H as (Hy & Hdy & Hg & Hn & Hdn & Hext).
  destruct (int_digits y) as (z & Hz & _); [done|by destruct y|].
  exists z. split; [done|]. unfold parse_filename. rewrite re_match_text by done.
  destruct (group_captures y g n ext) as (-> & -> & -> & _).
  rewrite Hz. cbn [mbind result_bind fstr default]. do 4 f_equal.
  unfold gender_of. repeat case_decide; naive_solver.
Qed.

Lemma parse_filename_None filename :
  re_match pattern filename = None →
  parse_filename filename = Ok (None, None, None, None).
Proof. unfold parse_filename. by intros ->. Qed.
End ParseFilename.

(** ** [pathlib] *)

Section PathlibFacts.

Lemma name_child p f : name (child p f) = f.
Proof. unfold name, child. simpl. by rewrite last_snoc. Qed.

Lemma with_suffix_child p f s :
  f ≠ "" → with_suffix (child p f) s = Ok (child p (with_suffix_name f s)).
Proof.
  intros Hf. unfold with_suffix. rewrite name_child, decide_False by done.
  unfold child. simpl. by rewrite removelast_last.
Qed.

Lemma strip_parts_removelast ps f :
  strip_parts (removelast ps) (ps ++ [f]) = Some (tail_part ps ++ [f]).
Proof.
  induction ps as [|a [|b ps] IH]; [done| |].
  - simpl. done.
  - change (removelast (a :: b :: ps)) with (a :: removelast (b :: ps)).
    cbn [strip_parts app]. rewrite decide_True by done. apply IH.
Qed.

Lemma relative_to_child_parent p f :
  relative_to (child p f) (parent p) = Ok (mkPath "" (tail_part (parts p) ++ [f])).
Proof.
  unfold relative_to. simpl. rewrite decide_True by done.
  by rewrite strip_parts_removelast.
Qed.

(** The [file] cell tells the audio files of one directory apart. *)
Lemma file_of_inj p : Inj (=) (=) (file_of p).
Proof.
  intros f1 f2. unfold file_of, str, tail_part. simpl.
  destruct (last (parts p)) as [x|]; simpl; unfold join; simpl.
  - intros ?%(inj (String.app x))%(inj (String.app "/")). done.
  - done.
Qed.

End PathlibFacts.

(** ** The extractor's loop *)

Section Loop.
Import Grammar.
Variables (data_path : Path) (d : gmap string node).

Lemma accepted_nonempty filename : accepted filename → filename ≠ "".
Proof.
  intros [m (y & g & n & ext & rest & _ & -> & _)%re_match_Some]. done.
Qed.

(** A file name is parsed all or nothing, and parsing never raises. *)
Lemma parse_filename_cases filename :
  (accepted filename ∧
     ∃ speaker gender age birth_year,
       parse_filename filename
       = Ok (Some speaker, Some gender, Some age, Some birth_year))
  ∨ (¬ accepted filename ∧ parse_filename filename = Ok (None, None, None, None)).
Proof.
  destruct (Re.re_match pattern filename) as [m|] eqn:E.
  - left. split; [by exists m|].
    apply re_match_Some in E as (y & g & n & ext & rest & Hok & -> & _).
    destruct (parse_filename_text y g n ext rest Hok) as (b & _ & ->). eauto 10.
  - right. split; [|by apply parse_filename_None].
    unfold accepted. rewrite E. by intros [??].
Qed.

(** The existence test of a transcript and the reading after it: the
    transcription and the diagnostic when the test answers, the
    exception when it does not. *)
Lemma transcript_cases filename :
  (∃ found : bool,
     exists_ (stat d (txt_name filename)) = Ok found
     ∧ stat_error d filename = None
     ∧ ∀ out,
         (if found
          then read_transcription d (child data_path (txt_name filename))
          else print ("Warning: No transcription file found for " +:+ filename);;
               mret "") out
         = (Ok (transcription_of d filename),
            out ++ transcript_diag data_path d filename))
  ∨ (∃ e, exists_ (stat d (txt_name filename)) = Raise e
          ∧ stat_error d filename = Some e).
Proof.
  unfold stat_error, stat, read_transcription, transcription_of, transcript_diag.
  rewrite name_child.
  destruct (d !! txt_name filename) as [[content|e|errno e]|].
  - left. exists true. split_and!; try done. intros out. cbn. by rewrite app_nil_r.
  - left. by exists true.
  - cbn. case_decide.
    + left. by exists false.
    + right. by eexists.
  - left. by exists false.
Qed.

Lemma loop_head filename files records out :
  loop data_path d (filename :: files) records out
  = if decide (accepted filename) then
      match stat_error d filename with
      | None =>
          loop data_path d files (records ++ [record_of data_path d filename])
               (out ++ transcript_diag data_path d filename)
      | Some e => (Raise e, out)
      end
    else loop data_path d files records
              (out ++ ["Warning: Could not parse filename: " +:+ filename]).
Proof.
  cbn [loop].
  destruct (parse_filename_cases filename)
    as [(Hacc & speaker & gender & age & birth_year & Hp)|[Hacc Hp]].
  - rewrite decide_True by done.
    unfold mbind at 1, M_bind at 1, lift at 1. rewrite Hp.
    rewrite with_suffix_child by by apply accepted_nonempty.
    unfold mbind at 1, M_bind at 1, lift at 1.
    rewrite name_child, relative_to_child_parent.
    unfold mbind at 1, M_bind at 1, lift at 1.
    change (with_suffix_name filename ".txt") with (txt_name filename).
    destruct (transcript_cases filename)
      as [(found & -> & -> & Hread)|(e & -> & ->)]; [|done].
    unfold mbind at 1, M_bind at 1. rewrite Hread.
    unfold mbind at 1, M_bind at 1, lift at 1.
    do 2 f_equal. unfold record_of, fields_of. by rewrite Hp.
  - rewrite decide_False by done.
    unfold mbind at 1, M_bind at 1, lift at 1. rewrite Hp.
    by unfold mbind at 1, M_bind at 1, print at 1.
Qed.

Lemma loop_spec files records out :
  Forall (passable d) files →
  loop data_path d files records out
  = (Ok (records ++ (record_of data_path d <$> filter accepted files)),
     out ++ (files ≫= diag_of data_path d)).
Proof.
  intros Hall. revert records out.
  induction Hall as [|filename files Hf _ IH]; intros records out.
  { simpl. by rewrite !app_nil_r. }
  rewrite loop_head, filter_cons, bind_cons. unfold diag_of at 1.
  case_decide as Hacc.
  - rewrite (Hf Hacc), IH, fmap_cons. by rewrite <- !(assoc_L (++)).
  - rewrite IH. by rewrite <- !(assoc_L (++)).
Qed.

(** The loop stops at the first kept audio file whose transcript cannot
    be examined; nothing is printed for that file. *)
Lemma loop_abort pre filename post e records out :
  Forall (passable d) pre → accepted filename → stat_error d filename = Some e →
  loop data_path d (pre ++ filename :: post) records out
  = (Raise e, out ++ (pre ≫= diag_of data_path d)).
Proof.
  intros Hall Hacc He. revert records out.
  induction Hall as [|f pre Hf _ IH]; intros records out.
  { rewrite app_nil_l, loop_head, decide_True, He by done. by rewrite app_nil_r. }
  rewrite <- app_comm_cons, loop_head, bind_cons. unfold diag_of at 1.
  case_decide as Hacc'.
  - rewrite (Hf Hacc'), IH. by rewrite <- !(assoc_L (++)).
  - rewrite IH. by rewrite <- !(assoc_L (++)).
Qed.


(** A list of files has none at which the loop stops, or a first one. *)
Lemma passable_or_first files :
  Forall (passable d) files
  ∨ ∃ pre filename post e,
      files = pre ++ filename :: post ∧ Forall (passable d) pre
      ∧ accepted filename ∧ stat_error d filename = Some e.
Proof.
  induction files as [|f files IH]; [by left|].
  destruct (decide (accepted f)) as [Hacc|Hacc].
  - destruct (stat_error d f) as [e|] eqn:E.
    + right. by exists [], f, files, e.
    + destruct IH as [IH|(pre & g & post & e & -> & Hpre & Hg & He)].
      * left. constructor; [by intros _|done].
      * right. exists (f :: pre), g, post, e. split; [done|].
        split; [|done]. constructor; [by intros _|done].
  - destruct IH as [IH|(pre & g & post & e & -> & Hpre & Hg & He)].
    + left. constructor; [by intros ?|done].
    + right. exists (f :: pre), g, post, e. split; [done|].
      split; [|done]. constructor; [by intros ?|done].
Qed.

End Loop.

(** ** The extractor's table *)

Section Table.
Import Grammar.
Variables (data_path : Path) (d : gmap string node).

Lemma record_of_keys f : (record_of data_path d f).*1 = record_keys.
Proof. unfold record_of. by destruct (fields_of f) as [[[??]?]?]. Qed.

Lemma add_keys_known (acc ks : list string) :
  Forall (.∈ acc) ks →
  foldl (fun acc k => if decide (k ∈ acc) then acc else acc ++ [k]) acc ks = acc.
Proof.
  induction 1 as [|k ks Hk _ IH]; [done|]. simpl. by rewrite decide_True.
Qed.

Lemma union_keys_records f fs :
  union_keys (record_of data_path d <$> f :: fs) = record_keys.
Proof.
  unfold union_keys. rewrite fmap_cons, bind_cons, foldl_app, record_of_keys.
  change (foldl _ [] record_keys) with record_keys.
  apply add_keys_known, Forall_forall. intros k.
  intros (r & Hk & (f' & -> & _)%list_elem_of_fmap)%list_elem_of_bind.
  by rewrite record_of_keys in Hk.
Qed.

Lemma of_records_kept f fs :
  of_records VNone (record_of data_path d <$> f :: fs)
  = mkDF None record_keys
         ((fun f => VStr (file_of data_path f) :: take 4 (row_of d f)
                    ++ [VStr (transcription_of d f)]) <$> f :: fs).
Proof.
  unfold of_records. rewrite union_keys_records. f_equal.
  rewrite <- list_fmap_compose. apply list_fmap_ext. intros _ f' _. simpl.
  unfold record_of, row_of. by destruct (fields_of f') as [[[??]?]?].
Qed.

Lemma examinable_passable : examinable d ↔ Forall (passable d) (audio_files d).
Proof.
  unfold examinable, kept, passable. rewrite !Forall_forall. split.
  - intros H f Hf Hacc. apply H. by apply list_elem_of_filter.
  - intros H f [Hacc Hf]%list_elem_of_filter. by apply H.
Qed.

Lemma process_database_found out :
  examinable d →
  process_database data_path (Dir d) out
  = (match kept d with
     | [] => Raise (KeyError record_keys)
     | _ => Ok (table data_path d)
     end,
     out ++ ["Found " +:+ pretty (length (glob d ".WAV" ++ glob d ".wav"))
               +:+ " audio files"]
         ++ (audio_files d ≫= diag_of data_path d)).
Proof.
  intros Hex%examinable_passable.
  unfold process_database. unfold mbind at 1, M_bind at 1, print at 1.
  unfold mbind at 1, M_bind at 1. fold (audio_files d). rewrite loop_spec by done.
  rewrite app_nil_l, <- (assoc_L (++)). fold (kept d). unfold table.
  destruct (kept d) as [|f fs]; [done|].
  rewrite of_records_kept. generalize (f :: fs). clear f fs. intros fs.
  unfold setitem_scalar. cbn [columns rows index].
  assert (col_index "emotion" record_keys = None) as -> by reflexivity.
  unfold getitem. cbn [columns rows index].
  assert (filter (fun c => c ∉ record_keys ++ ["emotion"]) column_order = [])
    as -> by reflexivity.
  unfold mbind at 1, M_bind at 1, lift at 1.
  unfold set_index. cbn [columns rows index].
  assert (col_index "file" column_order = Some 0%nat) as -> by reflexivity.
  unfold mbind, M_bind, lift, mret, M_ret.
  rewrite <- !list_fmap_compose.
  assert (∀ f, (delete 0%nat
                ∘ (fun r => cell VNone (record_keys ++ ["emotion"]) r <$> column_order)
                ∘ (fun r => r ++ [VStr "unknown"])
                ∘ (fun f => VStr (file_of data_path f)
                            :: take 4 (row_of d f) ++ [VStr (transcription_of d f)])) f
               = row_of d f) as Hrow.
  { intros f. simpl. unfold row_of. by destruct (fields_of f) as [[[??]?]?]. }
  rewrite (list_fmap_ext _ _ fs (fun _ f _ => Hrow f)).
  by repeat f_equal.
Qed.

(** The run stops at the first kept audio file whose transcript cannot
    be examined, with the exception of the existence test. *)
Lemma process_database_abort pre filename post e out :
  audio_files d = pre ++ filename :: post →
  Forall (passable d) pre → accepted filename → stat_error d filename = Some e →
  process_database data_path (Dir d) out
  = (Raise e,
     out ++ ["Found " +:+ pretty (length (glob d ".WAV" ++ glob d ".wav"))
               +:+ " audio files"]
         ++ (pre ≫= diag_of data_path d)).
Proof.
  intros Hfiles Hpre Hacc He.
  unfold process_database. unfold mbind at 1, M_bind at 1, print at 1.
  unfold mbind at 1, M_bind at 1. fold (audio_files d).
  rewrite Hfiles, (loop_abort data_path d pre filename post e) by done.
  by rewrite <- (assoc_L (++)).
Qed.

(** A run on a directory gets through the loop or stops in it. *)
Lemma examinable_or_first :
  examinable d
  ∨ ∃ pre filename post e,
      audio_files d = pre ++ filename :: post ∧ Forall (passable d) pre
      ∧ accepted filename ∧ stat_error d filename = Some e.
Proof.
  destruct (passable_or_first d (audio_files d)) as [H|H]; [|by right].
  left. by apply examinable_passable.
Qed.

End Table.

(** ** The audio files of a directory *)

Section AudioFiles.
Import Grammar.
Variable d : gmap string node.

Lemma elem_of_listdir f : f ∈ listdir d ↔ is_Some (d !! f).
Proof.
  unfold listdir. rewrite list_elem_of_fmap. split.
  - intros ([f' v] & -> & H%elem_of_map_to_list). by exists v.
  - intros [v Hv]. exists (f, v). split; [done|]. by apply elem_of_map_to_list.
Qed.

Lemma NoDup_listdir : NoDup (listdir d).
Proof. apply NoDup_fst_map_to_list. Qed.

Lemma endswith_WAV_wav f : endswith f ".WAV" → endswith f ".wav" → False.
Proof.
  unfold endswith. intros [H1 _]%bool_decide_unpack [H2 _]%bool_decide_unpack.
  simpl in *. congruence.
Qed.

Lemma elem_of_audio_files f :
  f ∈ audio_files d
  ↔ is_Some (d !! f) ∧ (endswith f ".WAV" ∨ endswith f ".wav").
Proof.
  unfold audio_files, sorted, glob. rewrite merge_sort_Permutation.
  rewrite elem_of_app, !list_elem_of_filter, elem_of_listdir. tauto.
Qed.

Lemma NoDup_audio_files : NoDup (audio_files d).
Proof.
  unfold audio_files, sorted, glob. rewrite merge_sort_Permutation.
  apply NoDup_app. split_and!; [apply NoDup_filter, NoDup_listdir| |
                                apply NoDup_filter, NoDup_listdir].
  intros f [H1 _]%list_elem_of_filter [H2 _]%list_elem_of_filter.
  by eapply endswith_WAV_wav.
Qed.

Lemma length_audio_files :
  length (audio_files d) = length (glob d ".WAV" ++ glob d ".wav").
Proof. unfold audio_files, sorted. by rewrite merge_sort_Permutation. Qed.

Lemma elem_of_kept f : f ∈ kept d ↔ accepted f ∧ f ∈ audio_files d.
Proof. apply list_elem_of_filter. Qed.

Lemma NoDup_kept : NoDup (kept d).
Proof. apply NoDup_filter, NoDup_audio_files. Qed.

End AudioFiles.

(** ** The rows of the extractor's table *)

Section Rows.
Import Grammar.
Variables (data_path : Path) (d : gmap string node).

Lemma row_of_accepted f :
  accepted f →
  ∃ speaker gender age birth_year,
    parse_filename f = Ok (Some speaker, Some gender, Some age, Some birth_year)
    ∧ row_of d f = [VStr speaker; VStr gender; VInt age; VInt birth_year;
                    VStr "unknown"; VStr (transcription_of d f)].
Proof.
  intros Hacc.
  destruct (parse_filename_cases f) as [(_ & sp & g & a & b & Hp)|[? _]]; [|done].
  exists sp, g, a, b. split; [done|]. unfold row_of, fields_of. by rewrite Hp.
Qed.

Lemma process_database_NoStat errno out :
  process_database data_path (NoStat errno) out
  = (Raise (if decide (errno ∈ _IGNORED_ERRNOS) then FileNotFoundError
            else OSError errno), out).
Proof. unfold process_database. cbn. by case_decide. Qed.

Lemma process_database_Ok fs out df out' :
  process_database data_path fs out = (Ok df, out') →
  ∃ d', fs = Dir d' ∧ kept d' ≠ [] ∧ df = table data_path d' ∧ examinable d'.
Proof.
  destruct fs as [errno|d']; [by rewrite process_database_NoStat|].
  destruct (examinable_or_first d')
    as [Hex|(pre & f & post & e & Hfiles & Hpre & Hacc & He)]; cycle 1.
  { by rewrite (process_database_abort data_path d' pre f post e). }
  rewrite process_database_found by done.
  destruct (kept d') eqn:E; [done|]. intros [= <- _].
  exists d'. split; [done|]. split; [by rewrite E|done].
Qed.

Lemma process_database_kept f out :
  examinable d → f ∈ kept d →
  ∃ out', process_database data_path (Dir d) out = (Ok (table data_path d), out')
          ∧ ∀ line, line ∈ audio_files d ≫= diag_of data_path d → line ∈ out'.
Proof.
  intros Hex Hf. rewrite process_database_found by done. eexists. split.
  - destruct (kept d); [by apply elem_of_nil in Hf|done].
  - intros line Hline. rewrite !elem_of_app. auto.
Qed.

Lemma table_lookup f :
  f ∈ kept d →
  ∃ i, ((fun f => VStr (file_of data_path f)) <$> kept d) !! i
       = Some (VStr (file_of data_path f))
       ∧ rows (table data_path d) !! i = Some (row_of d f).
Proof.
  intros [i Hi]%list_elem_of_lookup. exists i. simpl.
  rewrite !list_lookup_fmap, Hi. done.
Qed.

Lemma diag_of_emitted f line :
  f ∈ audio_files d → line ∈ diag_of data_path d f →
  line ∈ audio_files d ≫= diag_of data_path d.
Proof. intros. apply list_elem_of_bind. eauto. Qed.

End Rows.

(** ** Tables *)

Section TableFacts.
Context {V : Type} (nan : V).

Lemma col_index_Some c cols :
  c ∈ cols → ∃ i, col_index c cols = Some i ∧ cols !! i = Some c.
Proof.
  induction cols as [|c' cols IH]; [by intros ?%elem_of_nil|].
  intros Hc. simpl. case_decide as E; [subst; by exists 0%nat|].
  apply elem_of_cons in Hc as [->|Hc]; [done|].
  destruct (IH Hc) as (i & -> & Hi). by exists (S i).
Qed.

Lemma col_index_None c cols : c ∉ cols → col_index c cols = None.
Proof.
  induction cols as [|c' cols IH]; [done|].
  intros [? ?]%not_elem_of_cons. simpl. rewrite decide_False by done.
  by rewrite IH.
Qed.

Lemma col_index_lt c cols i : col_index c cols = Some i → (i < length cols)%nat.
Proof.
  revert i. induction cols as [|c' cols IH]; intros i; simpl; [done|].
  case_decide; [intros [= <-]; lia|].
  destruct (col_index c cols) as [j|]; [|done]. intros [= <-].
  specialize (IH j eq_refl). lia.
Qed.

(** Reading a cell of a row whose cells were picked by label. *)
Lemma cell_picked cols cols' (r : list V) c :
  c ∈ cols' → cell nan cols' (cell nan cols r <$> cols') c = cell nan cols r c.
Proof.
  intros (i & Hi & Hc)%col_index_Some. unfold cell at 1. rewrite Hi. simpl.
  by rewrite list_lookup_fmap, Hc.
Qed.

(** A cell under a label of the left part of a joined row. *)
Lemma cell_app_l cols cols' (l r : list V) c :
  c ∈ cols → length l = length cols →
  cell nan (cols ++ cols') (l ++ r) c = cell nan cols l c.
Proof.
  intros Hc Hlen. unfold cell.
  assert (col_index c (cols ++ cols') = col_index c cols) as ->.
  { clear Hlen. induction cols as [|c' cols IH]; [by apply elem_of_nil in Hc|].
    simpl. case_decide; [done|].
    apply elem_of_cons in Hc as [->|Hc]; [done|]. by rewrite IH. }
  destruct (col_index c cols) as [i|] eqn:Hi; [|done]. simpl.
  apply col_index_lt in Hi. by rewrite lookup_app_l by lia.
Qed.

Lemma key_tuple_picked cols cols' keys (r : list V) :
  keys ⊆ cols' →
  key_tuple nan cols' keys (cell nan cols r <$> cols') = key_tuple nan cols keys r.
Proof.
  intros Hsub. unfold key_tuple. apply list_fmap_ext. intros _ k Hk%list_elem_of_lookup_2.
  apply cell_picked. by apply Hsub.
Qed.

End TableFacts.

(** ** The merger *)

Section MergerFacts.
Context {V : Type} `{EqDecision V} (nan : V).
Implicit Types A B : DataFrame V.

Lemma filter_none {X} (P : X → Prop) `{!∀ x, Decision (P x)} (l : list X) :
  Forall (fun x => ¬ P x) l → filter P l = [].
Proof. induction 1; [done|]. by rewrite filter_cons_False. Qed.

Lemma filter_fmap {X Y} (P : Y → Prop) `{!∀ y, Decision (P y)}
    (f : X → Y) (l : list X) :
  filter P (f <$> l) = f <$> filter (P ∘ f) l.
Proof.
  induction l as [|x l IH]; [done|]. rewrite fmap_cons, !filter_cons, IH.
  simpl. by case_decide.
Qed.

Lemma elem_of_unique_cols A c :
  c ∈ unique_cols A ↔ (c ∉ common_cols) ∧ c ∈ columns A.
Proof. apply (list_elem_of_filter (fun c => c ∉ common_cols)). Qed.

(** The labels that the script picks from [segmented]. *)
Lemma picked_rest A :
  filter (fun c => c ∉ common_cols) (common_cols ++ unique_cols A) = unique_cols A.
Proof.
  rewrite filter_app. unfold unique_cols.
  rewrite list_filter_filter_l by done. done.
Qed.

Lemma getitem_segmented B :
  has_keys B →
  getitem nan B (common_cols ++ unique_cols B)
  = Ok (mkDF (index B) (common_cols ++ unique_cols B)
             ((fun r => cell nan (columns B) r <$> common_cols ++ unique_cols B)
                <$> rows B)).
Proof.
  unfold has_keys. intros HB. unfold getitem. rewrite filter_none; [done|].
  apply Forall_forall. intros c [Hc|Hc%elem_of_unique_cols]%elem_of_app Hn.
  - exact (Hn (HB c Hc)).
  - exact (Hn (proj2 Hc)).
Qed.

Lemma getitem_missing B :
  ¬ has_keys B →
  ∃ c missing,
    getitem nan B (common_cols ++ unique_cols B) = Raise (KeyError (c :: missing))
    ∧ Forall (fun c => c ∈ common_cols ∧ c ∉ columns B) (c :: missing).
Proof.
  unfold has_keys. intros HB. unfold getitem.
  destruct (filter _ _) as [|c missing] eqn:E.
  - destruct HB. intros c Hc. destruct (decide (c ∈ columns B)) as [|Hn]; [done|].
    destruct (filter_nil_not_elem_of (fun c => c ∉ columns B) _ c E Hn).
    apply elem_of_app. by left.
  - exists c, missing. split; [done|]. rewrite <- E. apply Forall_forall.
    intros c' [Hn [Hc|Hc%elem_of_unique_cols]%elem_of_app]%list_elem_of_filter;
      [by split|]. destruct (Hn (proj2 Hc)).
Qed.

Lemma joined_rows_picked A B :
  has_keys B →
  (l ← rows A;
   r ← filter (fun r => key_tuple nan (columns A) common_cols l
                        = key_tuple nan (common_cols ++ unique_cols B) common_cols r)
              ((fun r => cell nan (columns B) r <$> common_cols ++ unique_cols B)
                 <$> rows B);
   [l ++ (cell nan (common_cols ++ unique_cols B) r <$> unique_cols B)])
  = joined_rows nan A B.
Proof.
  unfold has_keys. intros HB. unfold joined_rows. apply list_bind_ext; [|done]. intros l.
  rewrite filter_fmap, list_fmap_bind.
  erewrite list_filter_iff.
  - apply list_bind_ext; [|done]. intros r. unfold unique_of, compose. do 2 f_equal.
    apply list_fmap_ext. intros _ c Hc%list_elem_of_lookup_2.
    apply cell_picked, elem_of_app. by right.
  - intros r. unfold compose, keys_of. rewrite key_tuple_picked; [done|].
    intros k Hk. apply elem_of_app. by left.
Qed.

End MergerFacts.

Section MergerRun.
Context {V : Type} `{EqDecision V} (nan : V).
Context {D : Type} `{EqDecision D} (coercible : D → D → bool).
Implicit Types A B : DataFrame V.
Implicit Types dtA dtB : string → D.

Lemma has_keys_dec A : has_keys A ∨ ¬ has_keys A.
Proof. unfold has_keys. destruct (decide (common_cols ⊆ columns A)); auto. Qed.

Lemma filter_iff_elem {X} (P Q : X → Prop)
    `{!∀ x, Decision (P x), !∀ x, Decision (Q x)} (l : list X) :
  (∀ x, x ∈ l → P x ↔ Q x) → filter P l = filter Q l.
Proof.
  induction l as [|x l IH]; [done|]. intros HPQ. rewrite !filter_cons.
  rewrite IH by (intros; apply HPQ; by right).
  destruct (HPQ x) as [??]; [by left|]. repeat case_decide; tauto.
Qed.

(** The script up to [pd.merge], for a [segmented] that has the keys. *)
Lemma merge_predictions_unfold dtA dtB A B :
  has_keys B →
  merge_predictions nan coercible dtA dtB A B
  = match filter (fun k => k ∉ columns A) common_cols with
    | k :: _ => Raise (KeyError [k])
    | [] =>
        if decide (joinable coercible dtA dtB A B) then
          let to_rename := filter (fun c => c ∈ unique_cols B) (columns A) in
          let llabels := renamer to_rename "_x" <$> columns A in
          let rlabels := renamer to_rename "_y" <$> unique_cols B in
          if decide (NoDup llabels ∧ NoDup rlabels)
          then Ok (mkDF None (llabels ++ rlabels) (joined_rows nan A B))
          else Raise MergeError
        else Raise ValueError
    end.
Proof.
  intros HB. unfold merge_predictions. rewrite getitem_segmented by done.
  cbn [mbind result_bind]. unfold merge. cbn [columns rows].
  rewrite picked_rest.
  assert (filter (fun k => k ∉ common_cols ++ unique_cols B ∨ k ∉ columns A)
                 common_cols
          = filter (fun k => k ∉ columns A) common_cols) as ->.
  { apply filter_iff_elem. intros k Hk. split; [|by right].
    intros [Hn|Hn]; [|done]. destruct Hn. apply elem_of_app. by left. }
  destruct (filter _ common_cols); [|done].
  destruct (decide (joinable coercible dtA dtB A B)) as [Hj|Hj].
  - rewrite decide_False; cycle 1.
    { intros (HA & HB' & Hn). destruct Hj as [E|[E|Hall]]; [done| |done].
      rewrite E in HB'. by apply HB'. }
    case_decide; [|done]. by rewrite joined_rows_picked.
  - rewrite decide_True; [done|]. split_and!.
    + intros E. apply Hj. by left.
    + intros E%fmap_nil_inv. apply Hj. right. by left.
    + intros Hall. apply Hj. right. by right.
Qed.

Lemma filter_keys_nil A : has_keys A ↔ filter (fun k => k ∉ columns A) common_cols = [].
Proof.
  split.
  - intros HA. apply filter_none, Forall_forall. intros k Hk Hn. by apply Hn, HA.
  - intros E k Hk. destruct (decide (k ∈ columns A)) as [|Hn]; [done|].
    destruct (filter_nil_not_elem_of (fun k => k ∉ columns A) _ k E Hn Hk).
Qed.

(** A table without one of the key columns stops the script with a
    [KeyError] that names missing key columns. *)
Lemma merge_predictions_missing dtA dtB A B :
  ¬ has_keys A ∨ ¬ has_keys B →
  ∃ c missing,
    merge_predictions nan coercible dtA dtB A B = Raise (KeyError (c :: missing))
    ∧ Forall (fun c => c ∈ common_cols ∧ (c ∉ columns A ∨ c ∉ columns B))
             (c :: missing).
Proof.
  intros Hmiss. destruct (has_keys_dec B) as [HB|HB].
  - destruct Hmiss as [HA|?]; [|done]. rewrite merge_predictions_unfold by done.
    rewrite filter_keys_nil in HA.
    destruct (filter _ common_cols) as [|k ks] eqn:E; [done|].
    exists k, []. split; [done|]. apply Forall_singleton.
    assert (k ∈ filter (λ k, k ∉ columns A) common_cols) as Hk by (rewrite E; left).
    apply list_elem_of_filter in Hk as [??]. auto.
  - destruct (getitem_missing nan B HB) as (c & missing & E & Hall).
    exists c, missing. unfold merge_predictions. rewrite E. split; [done|].
    eapply Forall_impl; [exact Hall|]. intros c' [??]. auto.
Qed.

Lemma merge_predictions_Ok dtA dtB A B df :
  merge_predictions nan coercible dtA dtB A B = Ok df →
  has_keys A ∧ has_keys B ∧ index df = None ∧ rows df = joined_rows nan A B
  ∧ (∃ to_rename,
      columns df = (renamer to_rename "_x" <$> columns A)
                   ++ (renamer to_rename "_y" <$> unique_cols B)
      ∧ to_rename = filter (fun c => c ∈ unique_cols B) (columns A))
  ∧ joinable coercible dtA dtB A B.
Proof.
  intros E. destruct (has_keys_dec B) as [HB|HB]; cycle 1.
  { destruct (merge_predictions_missing dtA dtB A B) as (? & ? & E' & _); [by right|].
    congruence. }
  destruct (has_keys_dec A) as [HA|HA]; cycle 1.
  { destruct (merge_predictions_missing dtA dtB A B) as (? & ? & E' & _); [by left|].
    congruence. }
  rewrite merge_predictions_unfold in E by done.
  rewrite (proj1 (filter_keys_nil A) HA) in E. cbv zeta in E.
  case_decide; [|done]. case_decide; [|done]. injection E as <-. eauto 10.
Qed.

Lemma renamer_nil suffix (cols : list string) : renamer [] suffix <$> cols = cols.
Proof.
  induction cols as [|c cols IH]; [done|]. rewrite fmap_cons, IH. unfold renamer.
  rewrite decide_False; [done|]. by intros ?%elem_of_nil.
Qed.

Lemma merge_predictions_disjoint dtA dtB A B :
  has_keys A → has_keys B → NoDup (columns A) → NoDup (columns B) →
  unique_disjoint A B →
  merge_predictions nan coercible dtA dtB A B
  = if decide (joinable coercible dtA dtB A B)
    then Ok (mkDF None (columns A ++ unique_cols B) (joined_rows nan A B))
    else Raise ValueError.
Proof.
  intros HA HB HnA HnB Hdis. rewrite merge_predictions_unfold by done.
  rewrite (proj1 (filter_keys_nil A) HA). cbv zeta. case_decide; [|done].
  assert (filter (fun c => c ∈ unique_cols B) (columns A) = []) as ->.
  { apply filter_none, Forall_forall. intros c Hc Hu.
    apply (Hdis c); [|done]. apply elem_of_unique_cols. split; [|done].
    by apply elem_of_unique_cols in Hu as [??]. }
  rewrite !renamer_nil. rewrite decide_True; [done|].
  split; [done|]. by apply NoDup_filter.
Qed.

End MergerRun.

Section JoinFacts.
Context {V : Type} `{EqDecision V} (nan : V).
Implicit Types A B : DataFrame V.

Lemma elem_of_joined_rows A B row :
  row ∈ joined_rows nan A B
  ↔ ∃ l r, l ∈ rows A ∧ r ∈ rows B ∧ keys_of nan A l = keys_of nan B r
           ∧ row = l ++ unique_of nan B r.
Proof.
  unfold joined_rows. rewrite list_elem_of_bind. split.
  - intros (l & (r & ->%list_elem_of_singleton & [??]%list_elem_of_filter)%list_elem_of_bind
            & Hl).
    by exists l, r.
  - intros (l & r & Hl & Hr & Hk & ->). exists l. split; [|done].
    apply list_elem_of_bind. exists r. split; [by left|].
    by apply list_elem_of_filter.
Qed.

Lemma length_bind_one {X Y} (f : X → list Y) (l : list X) :
  Forall (fun x => length (f x) = 1%nat) l → length (l ≫= f) = length l.
Proof.
  induction 1 as [|x l Hx _ IH]; [done|].
  rewrite bind_cons, length_app, Hx, IH. done.
Qed.

(** A key that occurs once among the keys of the rows selects one row. *)
Lemma length_filter_key {X K} `{EqDecision K} (f : X → K) (k : K) (l : list X) :
  NoDup (f <$> l) → k ∈ f <$> l →
  length (filter (fun x => k = f x) l) = 1%nat.
Proof.
  induction l as [|x l IH]; [by intros _ ?%elem_of_nil|].
  rewrite fmap_cons. intros [Hx Hl]%NoDup_cons Hk. rewrite filter_cons.
  case_decide as E.
  - subst k. rewrite filter_none; [done|].
    apply Forall_forall. intros y Hy Hxy. apply Hx. rewrite Hxy.
    by apply list_elem_of_fmap_2.
  - apply elem_of_cons in Hk as [?|Hk]; [done|]. by apply IH.
Qed.

Lemma joined_rows_length A B :
  keys_of nan A <$> rows A = keys_of nan B <$> rows B →
  NoDup (keys_of nan A <$> rows A) →
  length (joined_rows nan A B) = length (rows A).
Proof.
  intros Hsame Hnodup. unfold joined_rows. apply length_bind_one, Forall_forall.
  intros l Hl. rewrite length_bind_one; [|by apply Forall_forall].
  apply (length_filter_key (keys_of nan B)); [by rewrite <- Hsame|].
  rewrite <- Hsame. by apply list_elem_of_fmap_2.
Qed.

Lemma joined_rows_disjoint A B :
  (∀ l r, l ∈ rows A → r ∈ rows B → keys_of nan A l ≠ keys_of nan B r) →
  joined_rows nan A B = [].
Proof.
  intros Hdis. apply elem_of_nil_inv. intros row.
  intros (l & r & Hl & Hr & Hk & _)%elem_of_joined_rows. by eapply Hdis.
Qed.

(** A table with the ten keys has ten columns more than its own. *)
Lemma length_columns A :
  NoDup (columns A) → has_keys A →
  length (columns A) = (10 + length (unique_cols A))%nat.
Proof.
  intros Hnodup HA.
  rewrite <- (filter_app_complement (fun c => c ∈ common_cols) (columns A)) at 1.
  rewrite length_app. f_equal.
  change 10%nat with (length common_cols). apply Permutation_length.
  apply NoDup_Permutation; [by apply NoDup_filter| |].
  - apply (bool_decide_unpack (NoDup common_cols)). by vm_compute.
  - intros c. rewrite list_elem_of_filter. split; [by intros [??]|].
    intros Hc. split; [done|]. by apply HA.
Qed.

End JoinFacts.

Section JoinedKeys.
Context {V : Type} `{EqDecision V} (nan : V).
Context {D : Type} `{EqDecision D} (coercible : D → D → bool).
Implicit Types A B : DataFrame V.

Lemma keys_of_eq_iff A B l r :
  keys_of nan A l = keys_of nan B r
  ↔ ∀ k, k ∈ common_cols → cell nan (columns A) l k = cell nan (columns B) r k.
Proof.
  unfold keys_of, key_tuple. split.
  - intros E k [i Hi]%list_elem_of_lookup.
    apply (f_equal (.!! i)) in E. rewrite !list_lookup_fmap, Hi in E.
    by injection E.
  - intros E. apply list_fmap_ext. intros i k Hk. apply E.
    by eapply list_elem_of_lookup_2.
Qed.

(** No key column is another label with the suffix of a merge. *)
Lemma key_not_suffixed k c suffix :
  k ∈ common_cols → suffix ∈ ["_x"; "_y"] → k ≠ c +:+ suffix.
Proof.
  unfold common_cols. intros Hk Hs E. subst k.
  repeat (apply elem_of_cons in Hs as [->|Hs]); [| |by apply elem_of_nil in Hs];
    repeat (apply elem_of_cons in Hk as [Hk|Hk]);
    try (by apply elem_of_nil in Hk);
    repeat (destruct c as [|? c];
            [by vm_compute in Hk
            |rewrite app_String in Hk;
             first [discriminate Hk | injection Hk as _ Hk]]).
Qed.

Lemma col_index_renamer to_rename suffix cols k :
  k ∈ common_cols → suffix ∈ ["_x"; "_y"] →
  Forall (fun c => c ∉ common_cols) to_rename →
  col_index k (renamer to_rename suffix <$> cols) = col_index k cols.
Proof.
  intros Hk Hs Hren. induction cols as [|c cols IH]; [done|].
  rewrite fmap_cons. cbn [col_index]. rewrite IH.
  destruct (decide (c ∈ to_rename)) as [Hc|Hc].
  - assert (renamer to_rename suffix c = c +:+ suffix) as ->
      by (unfold renamer; by rewrite decide_True).
    rewrite decide_False by (intros E; by eapply key_not_suffixed).
    rewrite decide_False; [done|]. intros ->.
    by eapply Forall_forall in Hren.
  - assert (renamer to_rename suffix c = c) as ->
      by (unfold renamer; by rewrite decide_False).
    done.
Qed.

(** The key cells of a joined row are those of its left part. *)
Lemma keys_of_joined (dtA dtB : string → D) A B df l u :
  Forall (fun r => length r = length (columns A)) (rows A) →
  merge_predictions nan coercible dtA dtB A B = Ok df → l ∈ rows A →
  keys_of nan df (l ++ u) = keys_of nan A l.
Proof.
  intros Hwf (HA & HB & _ & _ & (to_rename & Hcols & Hren) & _)%merge_predictions_Ok Hl.
  unfold keys_of, key_tuple. rewrite Hcols. apply list_fmap_ext. intros _ k Hk%list_elem_of_lookup_2.
  rewrite cell_app_l.
  - unfold cell. rewrite col_index_renamer; [done|done|by left|].
    rewrite Hren. apply Forall_forall.
    by intros c [[? _]%elem_of_unique_cols _]%list_elem_of_filter.
  - apply list_elem_of_fmap. exists k. split; [|by apply HA].
    unfold renamer. rewrite decide_False; [done|]. rewrite Hren.
    by intros [[? _]%elem_of_unique_cols _]%list_elem_of_filter.
  - rewrite length_fmap. by eapply Forall_forall in Hwf.
Qed.

End JoinedKeys.

(** ** The transcript of an audio file *)

Section Sibling.

Lemma rfind_app c s t :
  rfind c t = None → rfind c (s +:+ String c t) = Some (String.length s).
Proof.
  intros Ht. induction s as [|x s IH].
  - rewrite app_empty_l. simpl. by rewrite Ht, decide_True.
  - rewrite app_String. simpl. by rewrite IH.
Qed.

Lemma substring_app_skip s t n :
  String.substring (String.length s) n (s +:+ t) = String.substring 0 n t.
Proof. induction s as [|x s IH]; [done|]. by rewrite app_String. Qed.

Lemma substring_all s : String.substring 0 (String.length s) s = s.
Proof. induction s as [|x s IH]; [done|]. simpl. by f_equal. Qed.

Lemma substring_split s n :
  (n ≤ String.length s)%nat →
  s = String.substring 0 n s +:+ String.substring n (String.length s - n) s.
Proof.
  revert n. induction s as [|x s IH]; intros [|n] Hn; simpl in *; try lia.
  - done.
  - rewrite app_empty_l. by rewrite substring_all.
  - rewrite app_String. f_equal. apply IH. lia.
Qed.

Lemma endswith_app s suffix : endswith s suffix → ∃ stem, s = stem +:+ suffix.
Proof.
  unfold endswith. intros [Hsub Hlen]%bool_decide_unpack.
  exists (String.substring 0 (String.length s - String.length suffix) s).
  pose proof (substring_split s (String.length s - String.length suffix)) as Hsplit.
  replace (String.length s - (String.length s - String.length suffix))%nat
    with (String.length suffix) in Hsplit by lia.
  rewrite Hsub in Hsplit. apply Hsplit. lia.
Qed.

Lemma suffix_of_ext stem ext :
  stem ≠ "" → ext ∈ ["WAV"; "wav"] →
  suffix_of (stem +:+ "." +:+ ext) = "." +:+ ext.
Proof.
  intros Hstem Hext. unfold suffix_of.
  change ("." +:+ ext) with (String "." ext).
  assert (rfind "." ext = None ∧ String.length ext = 3%nat
          ∧ String.substring 0 4 (String "." ext) = String "." ext)
    as (Hdot & Hlen & Hsub).
  { apply elem_of_cons in Hext as [->|Hext]; [done|].
    by apply list_elem_of_singleton in Hext as ->. }
  rewrite rfind_app by done. rewrite length_app'. cbn [String.length]. rewrite Hlen.
  assert (0 < String.length stem)%nat by (destruct stem; [done|simpl; lia]).
  rewrite decide_True by lia.
  replace (String.length stem + 4 - String.length stem)%nat with 4%nat by lia.
  by rewrite substring_app_skip.
Qed.

(** The transcript of [<stem>.WAV] or [<stem>.wav] is [<stem>.txt]. *)
Lemma txt_name_ext stem ext :
  stem ≠ "" → ext ∈ ["WAV"; "wav"] →
  txt_name (stem +:+ "." +:+ ext) = stem +:+ ".txt".
Proof.
  intros Hstem Hext. unfold txt_name, with_suffix_name.
  rewrite suffix_of_ext by done. rewrite decide_False by done.
  rewrite (length_app' stem).
  replace (String.length stem + String.length ("." +:+ ext)
           - String.length ("." +:+ ext))%nat with (String.length stem) by lia.
  by rewrite substring_0_app.
Qed.

Lemma txt_name_audio d f :
  f ∈ audio_files d → Grammar.accepted f →
  ∃ stem ext, ext ∈ ["WAV"; "wav"] ∧ f = stem +:+ "." +:+ ext
              ∧ txt_name f = stem +:+ ".txt".
Proof.
  intros [_ Hend]%elem_of_audio_files Hacc.
  assert (∃ stem ext, ext ∈ ["WAV"; "wav"] ∧ f = stem +:+ "." +:+ ext)
    as (stem & ext & Hext & ->).
  { destruct Hend as [[stem ->]%endswith_app|[stem ->]%endswith_app];
      [exists stem, "WAV"|exists stem, "wav"]; (split; [|done]).
    - by left.
    - right. by left. }
  exists stem, ext. split; [done|]. split; [done|]. apply txt_name_ext; [|done].
  intros ->. rewrite app_empty_l in Hacc.
  destruct Hacc as [m (y & g & n & ext' & rest & _ & Htext & _)%re_match_Some].
  discriminate Htext.
Qed.
End Sibling.

(** ** The digits of the birth year *)

Section Digits.
Import Grammar.

Lemma accepted_text filename :
  accepted filename →
  ∃ y g n ext rest, fields_ok y g n ext ∧ filename = text y g n ext rest.
Proof.
  intros [m (y & g & n & ext & rest & Hok & -> & _)%re_match_Some]. eauto 10.
Qed.

Lemma four_digits y :
  String.length y = 4%nat → all_digits y →
  ∃ c1 c2 c3 c4 (d1 d2 d3 d4 : nat),
    y = String c1 (String c2 (String c3 (String c4 "")))
    ∧ Ascii.is_nat c1 = Some d1 ∧ Ascii.is_nat c2 = Some d2
    ∧ Ascii.is_nat c3 = Some d3 ∧ Ascii.is_nat c4 = Some d4
    ∧ (d1 < 10 ∧ d2 < 10 ∧ d3 < 10 ∧ d4 < 10)%nat.
Proof.
  destruct y as [|c1 [|c2 [|c3 [|c4 [|??]]]]]; try done. intros _.
  simpl. rewrite !andb_True.
  intros ((d1 & ? & ?)%ReFacts.is_digit_value & (d2 & ? & ?)%ReFacts.is_digit_value
          & (d3 & ? & ?)%ReFacts.is_digit_value & (d4 & ? & ?)%ReFacts.is_digit_value & _).
  exists c1, c2, c3, c4, d1, d2, d3, d4. done.
Qed.

Lemma int_four_digits y b :
  String.length y = 4%nat → all_digits y → int (Some y) = Ok b →
  ∃ c1 c2 c3 c4 (d1 d2 d3 d4 : nat),
    y = String c1 (String c2 (String c3 (String c4 "")))
    ∧ Ascii.is_nat c1 = Some d1 ∧ Ascii.is_nat c2 = Some d2
    ∧ Ascii.is_nat c3 = Some d3 ∧ Ascii.is_nat c4 = Some d4
    ∧ b = 1000 * Z.of_nat d1 + 100 * Z.of_nat d2 + 10 * Z.of_nat d3 + Z.of_nat d4
    ∧ 0 ≤ b ≤ 9999.
Proof.
  intros Hy Hdy Hb.
  destruct (four_digits y Hy Hdy)
    as (c1 & c2 & c3 & c4 & d1 & d2 & d3 & d4 & -> & H1 & H2 & H3 & H4 & Hlt).
  exists c1, c2, c3, c4, d1, d2, d3, d4.
  unfold int in Hb. simpl in Hb. rewrite H1, H2, H3, H4 in Hb.
  injection Hb as <-. split_and!; try done; lia.
Qed.

End Digits.

(** ** The existence test of a transcript *)

Section StatFacts.

Lemma stat_error_Some d filename e :
  stat_error d filename = Some e →
  ∃ errno message,
    d !! txt_name filename = Some (Inaccessible errno message)
    ∧ (errno ∉ _IGNORED_ERRNOS) ∧ e = OSError errno.
Proof.
  unfold stat_error, stat.
  destruct (d !! txt_name filename) as [[content|msg|errno msg]|]; try done.
  cbn. case_decide; [done|]. intros [= <-]. by exists errno, msg.
Qed.

Lemma stat_error_Inaccessible d filename errno message :
  d !! txt_name filename = Some (Inaccessible errno message) →
  errno ∉ _IGNORED_ERRNOS → stat_error d filename = Some (OSError errno).
Proof. unfold stat_error, stat. intros -> Hn. cbn. by rewrite decide_False. Qed.

Lemma examinable_check d :
  bool_decide (Forall (fun f => stat_error d f = None) (kept d)) = true →
  examinable d.
Proof. by intros H%bool_decide_eq_true. Qed.

End StatFacts.

(** * The documented properties *)

Section Claims.
Import Grammar.

(** C1. For every file name that the grammar accepts, [parse_filename]
    returns [birth_year] as the integer value of the four-digit group,
    which is the decimal number that the characters 3 to 6 of the name
    write, and [age = 2025 - birth_year], so [age + birth_year = 2025]
    in every parsed record. *)
Theorem parse_filename_age filename m :
  Re.re_match pattern filename = Some m →
  ∃ y speaker gender age birth_year (d1 d2 d3 d4 : nat),
    Re.group m 1 = Some y ∧ String.length y = 4%nat ∧ all_digits y
    ∧ String.substring 2 4 filename = y
    ∧ String.get 0 y ≫= Ascii.is_nat = Some d1
    ∧ String.get 1 y ≫= Ascii.is_nat = Some d2
    ∧ String.get 2 y ≫= Ascii.is_nat = Some d3
    ∧ String.get 3 y ≫= Ascii.is_nat = Some d4
    ∧ birth_year = 1000 * Z.of_nat d1 + 100 * Z.of_nat d2
                   + 10 * Z.of_nat d3 + Z.of_nat d4
    ∧ int (Re.group m 1) = Ok birth_year
    ∧ parse_filename filename
      = Ok (Some speaker, Some gender, Some age, Some birth_year)
    ∧ age = 2025 - birth_year
    ∧ age + birth_year = 2025.
Proof.
  intros (y & g & n & ext & rest & Hok & -> & ->)%re_match_Some.
  destruct (parse_filename_text y g n ext rest Hok) as (b & Hb & Hp).
  destruct (group_captures y g n ext) as (Hg1 & _).
  pose proof Hok as (Hy & Hdy & _).
  destruct (int_four_digits y b Hy Hdy Hb)
    as (c1 & c2 & c3 & c4 & d1 & d2 & d3 & d4 & Ey & H1 & H2 & H3 & H4 & Hval & _).
  exists y, (String g "" +:+ "_" +:+ n), (gender_of g), (2025 - b), b, d1, d2, d3, d4.
  rewrite Hg1. subst y. split_and!; try done. lia.
Qed.

Lemma parse_filename_age_witness :
  Re.re_match pattern "G_1991_M_26_st.WAV" = Some (captures "1991" "M" "26" "WAV")
  ∧ parse_filename "G_1991_M_26_st.WAV"
    = Ok (Some "M_26", Some "male", Some 34, Some 1991)
  ∧ ∃ y speaker gender age birth_year (d1 d2 d3 d4 : nat),
      Re.group (captures "1991" "M" "26" "WAV") 1 = Some y
      ∧ String.length y = 4%nat ∧ all_digits y
      ∧ String.substring 2 4 "G_1991_M_26_st.WAV" = y
      ∧ String.get 0 y ≫= Ascii.is_nat = Some d1
      ∧ String.get 1 y ≫= Ascii.is_nat = Some d2
      ∧ String.get 2 y ≫= Ascii.is_nat = Some d3
      ∧ String.get 3 y ≫= Ascii.is_nat = Some d4
      ∧ birth_year = 1000 * Z.of_nat d1 + 100 * Z.of_nat d2
                     + 10 * Z.of_nat d3 + Z.of_nat d4
      ∧ int (Re.group (captures "1991" "M" "26" "WAV") 1) = Ok birth_year
      ∧ parse_filename "G_1991_M_26_st.WAV"
        = Ok (Some speaker, Some gender, Some age, Some birth_year)
      ∧ age = 2025 - birth_year
      ∧ age + birth_year = 2025.
Proof.
  split; [vm_compute; reflexivity|]. split; [vm_compute; reflexivity|].
  apply (parse_filename_age "G_1991_M_26_st.WAV" (captures "1991" "M" "26" "WAV")).
  vm_compute; reflexivity.
Defined.

(** C4. The match is anchored at the start of the file name only: a
    name that begins with a text of the grammar is accepted and parsed
    whatever follows it, as [G_1991_M_26_st.WAVxyz] is, and a name
    that does not begin with [G] is not. *)
Theorem parse_filename_prefix_match y g n ext rest :
  fields_ok y g n ext →
  accepted (text y g n ext rest)
  ∧ (∃ birth_year,
       int (Some y) = Ok birth_year
       ∧ parse_filename (text y g n ext rest)
         = Ok (Some (String g "" +:+ "_" +:+ n), Some (gender_of g),
               Some (2025 - birth_year), Some birth_year))
  ∧ parse_filename (text y g n ext rest) = parse_filename (text y g n ext "")
  ∧ parse_filename "G_1991_M_26_st.WAVxyz"
    = Ok (Some "M_26", Some "male", Some 34, Some 1991)
  ∧ ∀ c s, c ≠ "G"%char →
           parse_filename (String c s) = Ok (None, None, None, None).
Proof.
  intros Hok. split_and!.
  - exists (captures y g n ext). by apply re_match_text.
  - by apply parse_filename_text.
  - destruct (parse_filename_text y g n ext rest Hok) as (b & Hb & ->).
    destruct (parse_filename_text y g n ext "" Hok) as (b' & Hb' & ->).
    congruence.
  - vm_compute; reflexivity.
  - intros c s Hc. apply parse_filename_None. unfold Re.re_match, pattern.
    rewrite ReFacts.exec_Cat. simpl. by rewrite decide_False.
Qed.

Lemma parse_filename_prefix_match_witness :
  fields_ok "1991" "M" "26" "WAV"
  ∧ accepted "G_1991_M_26_st.WAVxyz"
  ∧ parse_filename "G_1991_M_26_st.WAVxyz" = parse_filename "G_1991_M_26_st.WAV".
Proof.
  assert (fields_ok "1991" "M" "26" "WAV") as Hok.
  { unfold fields_ok. split_and!; [reflexivity|exact I| |discriminate|exact I|].
    - apply elem_of_cons. by left.
    - apply elem_of_cons. by left. }
  split; [exact Hok|].
  destruct (parse_filename_prefix_match "1991" "M" "26" "WAV" "xyz" Hok)
    as (Hacc & _ & Heq & _).
  split; [exact Hacc|exact Heq].
Defined.

(** C10. [parse_filename] answers all or nothing: either none of
    speaker, gender, age and birth year, or all four; so every row of
    the table that the extractor returns has all four. *)
Theorem parse_filename_all_or_nothing filename :
  (parse_filename filename = Ok (None, None, None, None)
   ∨ ∃ speaker gender age birth_year,
       parse_filename filename
       = Ok (Some speaker, Some gender, Some age, Some birth_year))
  ∧ ∀ data_path fs out df out',
      process_database data_path fs out = (Ok df, out') →
      Forall (fun row => ∃ speaker gender age birth_year transcription,
                row = [VStr speaker; VStr gender; VInt age; VInt birth_year;
                       VStr "unknown"; VStr transcription])
             (rows df).
Proof.
  split.
  - destruct (parse_filename_cases filename) as [(_ & H)|[_ H]]; auto.
  - intros data_path fs out df out' (d & -> & _ & -> & _)%process_database_Ok.
    apply Forall_forall. intros row (f & -> & [Hacc _]%elem_of_kept)%list_elem_of_fmap.
    destruct (row_of_accepted d f Hacc) as (sp & g & a & b & _ & ->). eauto 10.
Qed.

Lemma parse_filename_all_or_nothing_witness :
  parse_filename "random_file.WAV" = Ok (None, None, None, None)
  ∧ Forall (fun row => ∃ speaker gender age birth_year transcription,
              row = [VStr speaker; VStr gender; VInt age; VInt birth_year;
                     VStr "unknown"; VStr transcription])
           (rows (table Sample.data Sample.corpus)).
Proof.
  split; [vm_compute; reflexivity|].
  apply (proj2 (parse_filename_all_or_nothing "random_file.WAV")
               Sample.data (Dir Sample.corpus) []
               (table Sample.data Sample.corpus)
               (process_database Sample.data (Dir Sample.corpus) []).2).
  vm_compute; reflexivity.
Defined.

(** C3, as the code has it. With no audio file in the scanned
    directory [pd.DataFrame([])] has no columns, so picking the
    columns of the schema raises a [KeyError]: no table is returned. *)
Theorem process_database_no_audio data_path d out :
  glob d ".WAV" ++ glob d ".wav" = [] →
  process_database data_path (Dir d) out
  = (Raise (KeyError ["file"; "speaker"; "gender"; "age"; "birth_year";
                      "transcription"]),
     out ++ ["Found 0 audio files"]).
Proof.
  intros E. rewrite process_database_found.
  - unfold kept, audio_files. by rewrite E.
  - unfold examinable, kept, audio_files. rewrite E. constructor.
Qed.

Lemma process_database_no_audio_witness :
  glob (∅ : gmap string node) ".WAV" ++ glob (∅ : gmap string node) ".wav" = []
  ∧ process_database Sample.data (Dir ∅) []
    = (Raise (KeyError ["file"; "speaker"; "gender"; "age"; "birth_year";
                        "transcription"]),
       ["Found 0 audio files"]).
Proof.
  split; [vm_compute; reflexivity|].
  apply (process_database_no_audio Sample.data ∅ []). vm_compute; reflexivity.
Defined.



(** C6. In the table that the extractor returns, [file] is the row
    key and its values are pairwise distinct, the columns after it are
    speaker, gender, age, birth_year, emotion, transcription in this
    order, and the emotion of every row is ["unknown"]. *)
Theorem table_schema data_path fs out df out' :
  process_database data_path fs out = (Ok df, out') →
  (∃ files, index df = Some ("file", files) ∧ NoDup files
            ∧ length files = length (rows df))
  ∧ "file" :: columns df = column_order
  ∧ Forall (fun row => length row = length (columns df)
                       ∧ cell VNone (columns df) row "emotion" = VStr "unknown")
           (rows df).
Proof.
  intros (d & -> & _ & -> & _)%process_database_Ok. split_and!.
  - exists ((fun f => VStr (file_of data_path f)) <$> kept d).
    split; [done|]. split; [|simpl; by rewrite !length_fmap].
    apply NoDup_fmap_2; [|apply NoDup_kept].
    intros f1 f2 [= ?]. by eapply file_of_inj.
  - done.
  - apply Forall_forall. intros row (f & -> & _)%list_elem_of_fmap.
    unfold row_of. by destruct (fields_of f) as [[[??]?]?].
Qed.

Lemma table_schema_witness :
  process_database Sample.data (Dir Sample.corpus) []
  = (Ok (table Sample.data Sample.corpus),
     ["Found 3 audio files";
      "Warning: No transcription file found for G_1988_F_07_st.wav";
      "Warning: Could not parse filename: random_file.WAV"])
  ∧ "file" :: columns (table Sample.data Sample.corpus) = column_order.
Proof.
  assert (process_database Sample.data (Dir Sample.corpus) []
          = (Ok (table Sample.data Sample.corpus),
             ["Found 3 audio files";
              "Warning: No transcription file found for G_1988_F_07_st.wav";
              "Warning: Could not parse filename: random_file.WAV"])) as Hrun.
  { vm_compute; reflexivity. }
  split; [exact Hrun|].
  exact (proj1 (proj2 (table_schema _ _ _ _ _ Hrun))).
Defined.

(** C7, as the code has it. [read_transcription] catches every failure
    of reading a transcript, but the loop first asks whether the
    transcript exists, outside of any [try]: when that test fails with
    an [OSError] that [exists] does not take for "not there" (no
    permission to search the directory, for one), the exception leaves
    [process_database]. The run stops at the first such file, prints
    nothing for it and returns no table, although reading the same
    transcript would only give a warning and the empty text. *)
Theorem transcript_check_aborts data_path d out filename errno message :
  filename ∈ audio_files d → accepted filename →
  d !! txt_name filename = Some (Inaccessible errno message) →
  errno ∉ _IGNORED_ERRNOS →
  (∃ e out',
     process_database data_path (Dir d) out = (Raise (OSError e), out')
     ∧ e ∉ _IGNORED_ERRNOS)
  ∧ (∀ df out', process_database data_path (Dir d) out ≠ (Ok df, out'))
  ∧ ((∀ g, g ∈ kept d → g ≠ filename → stat_error d g = None) →
     ∃ pre post,
       audio_files d = pre ++ filename :: post
       ∧ process_database data_path (Dir d) out
         = (Raise (OSError errno),
            out ++ ["Found " +:+ pretty (length (audio_files d)) +:+ " audio files"]
                ++ (pre ≫= diag_of data_path d)))
  ∧ read_transcription d (child data_path (txt_name filename)) out
    = (Ok "",
       out ++ ["Warning: Could not read "
                 +:+ str (child data_path (txt_name filename)) +:+ ": " +:+ message]).
Proof.
  intros Hin Hacc Htxt Herrno.
  pose proof (stat_error_Inaccessible d filename errno message Htxt Herrno) as Hstop.
  assert (filename ∈ kept d) as Hk by by apply elem_of_kept.
  assert (¬ examinable d) as Hnex.
  { intros Hex. eapply Forall_forall in Hex; [|done]. by rewrite Hstop in Hex. }
  assert (∃ e out',
            process_database data_path (Dir d) out = (Raise (OSError e), out')
            ∧ e ∉ _IGNORED_ERRNOS) as Hrun.
  { destruct (examinable_or_first d)
      as [Hex|(pre & f & post & e & Hfiles & Hpre & Hf & He)]; [done|].
    destruct (stat_error_Some d f e He) as (errno' & msg & _ & Hn & ->).
    exists errno'. eexists. split; [|done].
    by apply (process_database_abort data_path d pre f post). }
  split; [done|]. split; [|split].
  - intros df out' E. destruct Hrun as (e & out'' & Hrun & _). by rewrite Hrun in E.
  - intros Hothers. apply list_elem_of_split in Hin as (pre & post & Hfiles).
    exists pre, post. split; [done|].
    assert (Forall (passable d) pre) as Hpre.
    { apply Forall_forall. intros g Hg Hgacc. apply Hothers.
      - apply elem_of_kept. split; [done|]. rewrite Hfiles, elem_of_app. by left.
      - intros ->. pose proof (NoDup_audio_files d) as Hnd. rewrite Hfiles in Hnd.
        apply NoDup_app in Hnd as (_ & Hnd & _). apply (Hnd filename Hg). by left. }
    rewrite (process_database_abort data_path d pre filename post (OSError errno))
      by done.
    by rewrite length_audio_files.
  - unfold read_transcription. by rewrite name_child, Htxt.
Qed.

Lemma transcript_check_aborts_witness :
  "G_1988_F_07_st.wav" ∈ audio_files Sample.corpus_unsearchable
  ∧ accepted "G_1988_F_07_st.wav"
  ∧ Sample.corpus_unsearchable !! txt_name "G_1988_F_07_st.wav"
    = Some (Sample.denied "G_1988_F_07_st.txt")
  ∧ (EACCES ∉ _IGNORED_ERRNOS)
  ∧ process_database Sample.data (Dir Sample.corpus_unsearchable) []
    = (Raise (OSError EACCES), ["Found 3 audio files"])
  ∧ ∀ df out', process_database Sample.data (Dir Sample.corpus_unsearchable) []
               ≠ (Ok df, out').
Proof.
  assert ("G_1988_F_07_st.wav" ∈ audio_files Sample.corpus_unsearchable) as Hin.
  { apply (bool_decide_unpack _). vm_compute; reflexivity. }
  assert (accepted "G_1988_F_07_st.wav") as Hacc.
  { apply (bool_decide_unpack _). vm_compute; reflexivity. }
  assert (Sample.corpus_unsearchable !! txt_name "G_1988_F_07_st.wav"
          = Some (Sample.denied "G_1988_F_07_st.txt")) as Htxt.
  { vm_compute; reflexivity. }
  assert (EACCES ∉ _IGNORED_ERRNOS) as Herrno.
  { apply (bool_decide_unpack _). vm_compute; reflexivity. }
  split; [exact Hin|]. split; [exact Hacc|]. split; [exact Htxt|].
  split; [exact Herrno|]. split; [vm_compute; reflexivity|].
  exact (proj1 (proj2 (transcript_check_aborts Sample.data Sample.corpus_unsearchable []
                         "G_1988_F_07_st.wav" EACCES _ Hin Hacc Htxt Herrno))).
Defined.

Lemma wf_check {V : Type} (df : DataFrame V) :
  bool_decide (NoDup (columns df)) = true →
  bool_decide (Forall (fun r => length r = length (columns df)) (rows df)) = true →
  index df = None → wf df.
Proof.
  intros H1%bool_decide_eq_true H2%bool_decide_eq_true H3.
  split; [done|]. split; [done|]. rewrite H3. discriminate.
Qed.

Lemma has_keys_check {V : Type} (df : DataFrame V) :
  bool_decide (common_cols ⊆ columns df) = true → has_keys df.
Proof. by intros H1%bool_decide_eq_true. Qed.

Lemma unique_disjoint_check {V : Type} (A B : DataFrame V) :
  bool_decide (Forall (fun c => c ∉ unique_cols B) (unique_cols A)) = true →
  unique_disjoint A B.
Proof.
  intros H1%bool_decide_eq_true c Hc. by eapply Forall_forall in H1.
Qed.

(** C2. The merger is an inner join on the tuple of all ten key columns
    (file, start, end, speaker, gender, age, birth_year, duration,
    emotion, text): the rows of the result are the rows of the first
    table extended by the other columns of a row of the second table
    that agrees with it on every key column; a key tuple that only one
    table has is in no row of the result, and tables without a common
    key tuple give no row at all. *)
Theorem merge_inner_join {V : Type} `{EqDecision V} (nan : V)
    {D : Type} `{EqDecision D} (coercible : D → D → bool) (dtA dtB : string → D) (A B df : DataFrame V) :
  wf A → merge_predictions nan coercible dtA dtB A B = Ok df →
  common_cols = ["file"; "start"; "end"; "speaker"; "gender"; "age"; "birth_year";
                 "duration"; "emotion"; "text"]
  ∧ (∀ row, row ∈ rows df
            ↔ ∃ l r, l ∈ rows A ∧ r ∈ rows B
                     ∧ (∀ k, k ∈ common_cols →
                             cell nan (columns A) l k = cell nan (columns B) r k)
                     ∧ row = l ++ unique_of nan B r)
  ∧ (∀ row, row ∈ rows df →
            keys_of nan df row ∈ keys_of nan A <$> rows A
            ∧ keys_of nan df row ∈ keys_of nan B <$> rows B)
  ∧ ((∀ l r, l ∈ rows A → r ∈ rows B → keys_of nan A l ≠ keys_of nan B r) →
     rows df = [] ∧ (shape df).1 = 0%nat).
Proof.
intros (_ & HlenA & _) Hdf. split; [done|].
pose proof Hdf as (_ & _ & _ & Hrows & _)%merge_predictions_Ok.
split_and!.
- intros row. rewrite Hrows, elem_of_joined_rows.
  by setoid_rewrite keys_of_eq_iff.
- intros row. rewrite Hrows.
  intros (l & r & Hl & Hr & Hk & ->)%elem_of_joined_rows.
  rewrite (keys_of_joined nan coercible dtA dtB A B df l) by done.
  split; [|rewrite Hk]; by apply list_elem_of_fmap_2.
- intros Hdis. unfold shape. rewrite Hrows, joined_rows_disjoint by done. done.
Qed.

Lemma merge_inner_join_witness :
  wf Sample.linguistic
  ∧ merge_predictions 0 Sample.coercible Sample.numbers Sample.numbers Sample.linguistic Sample.acoustic
    = Ok (mkDF None (common_cols ++ ["valence"; "arousal"])
               [ [1; 0; 5; 7; 1; 34; 1991; 5; 0; 11; 3; 8];
                 [1; 5; 9; 7; 1; 34; 1991; 4; 0; 12; 4; 9] ])
  ∧ common_cols = ["file"; "start"; "end"; "speaker"; "gender"; "age"; "birth_year";
                   "duration"; "emotion"; "text"].
Proof.
assert (wf Sample.linguistic) as H1 by (apply wf_check; vm_compute; reflexivity).
assert (merge_predictions 0 Sample.coercible Sample.numbers Sample.numbers Sample.linguistic Sample.acoustic
        = Ok (mkDF None (common_cols ++ ["valence"; "arousal"])
                   [ [1; 0; 5; 7; 1; 34; 1991; 5; 0; 11; 3; 8];
                     [1; 5; 9; 7; 1; 34; 1991; 4; 0; 12; 4; 9] ])) as H2
  by (vm_compute; reflexivity).
split; [exact H1|]. split; [exact H2|].
exact (proj1 (merge_inner_join 0 Sample.coercible Sample.numbers Sample.numbers Sample.linguistic Sample.acoustic _ H1 H2)).
Defined.

(** C8, as the code has it. When the two tables hold the same key
    columns, cells and dtypes, in which no key tuple occurs twice, and
    share no other column, the result has as many rows as either table
    and ten columns plus the other columns of both. *)
Theorem merge_shape_identical_keys {V : Type} `{EqDecision V} (nan : V)
    {D : Type} `{EqDecision D} (coercible : D → D → bool) (dtA dtB : string → D)
    (A B : DataFrame V) :
  wf A → wf B → has_keys A → has_keys B → unique_disjoint A B →
  keys_of nan A <$> rows A = keys_of nan B <$> rows B →
  (∀ k, k ∈ common_cols → dtA k = dtB k) →
  NoDup (keys_of nan A <$> rows A) →
  ∃ df, merge_predictions nan coercible dtA dtB A B = Ok df
        ∧ shape df = (length (rows A),
                      (10 + length (unique_cols A) + length (unique_cols B))%nat)
        ∧ length (rows A) = length (rows B).
Proof.
  intros (HnA & _ & _) (HnB & _ & _) HA HB Hdis Hsame Hdt Hnodup.
  eexists. split.
  { rewrite merge_predictions_disjoint, decide_True; [done| |done..].
    right. right. apply Forall_forall. intros k Hk. left. by apply Hdt. }
  unfold shape. cbn [rows columns]. split.
  - rewrite joined_rows_length, length_app, length_columns by done. done.
  - apply (f_equal length) in Hsame. by rewrite !length_fmap in Hsame.
Qed.

Lemma merge_shape_identical_keys_witness :
  wf Sample.linguistic ∧ wf Sample.acoustic
  ∧ has_keys Sample.linguistic ∧ has_keys Sample.acoustic
  ∧ unique_disjoint Sample.linguistic Sample.acoustic
  ∧ keys_of 0 Sample.linguistic <$> rows Sample.linguistic
    = keys_of 0 Sample.acoustic <$> rows Sample.acoustic
  ∧ (∀ k, k ∈ common_cols → Sample.numbers k = Sample.numbers k)
  ∧ NoDup (keys_of 0 Sample.linguistic <$> rows Sample.linguistic)
  ∧ ∃ df, merge_predictions 0 Sample.coercible Sample.numbers Sample.numbers
            Sample.linguistic Sample.acoustic = Ok df
          ∧ shape df = (length (rows Sample.linguistic),
                        (10 + length (unique_cols Sample.linguistic)
                         + length (unique_cols Sample.acoustic))%nat)
          ∧ length (rows Sample.linguistic) = length (rows Sample.acoustic).
Proof.
  assert (wf Sample.linguistic) as H1 by (apply wf_check; vm_compute; reflexivity).
  assert (wf Sample.acoustic) as H2 by (apply wf_check; vm_compute; reflexivity).
  assert (has_keys Sample.linguistic) as H3
    by (apply has_keys_check; vm_compute; reflexivity).
  assert (has_keys Sample.acoustic) as H4
    by (apply has_keys_check; vm_compute; reflexivity).
  assert (unique_disjoint Sample.linguistic Sample.acoustic) as H5
    by (apply unique_disjoint_check; vm_compute; reflexivity).
  assert (keys_of 0 Sample.linguistic <$> rows Sample.linguistic
          = keys_of 0 Sample.acoustic <$> rows Sample.acoustic) as H6
    by (vm_compute; reflexivity).
  assert (∀ k, k ∈ common_cols → Sample.numbers k = Sample.numbers k) as H7
    by (intros k _; reflexivity).
  assert (NoDup (keys_of 0 Sample.linguistic <$> rows Sample.linguistic)) as H8
    by (apply (bool_decide_unpack _); vm_compute; reflexivity).
  split; [exact H1|]. split; [exact H2|]. split; [exact H3|]. split; [exact H4|].
  split; [exact H5|]. split; [exact H6|]. split; [exact H7|]. split; [exact H8|].
  exact (merge_shape_identical_keys 0 Sample.coercible Sample.numbers Sample.numbers
           Sample.linguistic Sample.acoustic H1 H2 H3 H4 H5 H6 H7 H8).
Defined.

(** C8 as it is stated fails: two tables with the same key columns and
    no other column in common, in which one segment is listed twice,
    give four rows, not two. *)
Lemma merge_shape_counterexample :
  wf Sample.linguistic_twice ∧ wf Sample.acoustic_twice
  ∧ has_keys Sample.linguistic_twice ∧ has_keys Sample.acoustic_twice
  ∧ unique_disjoint Sample.linguistic_twice Sample.acoustic_twice
  ∧ keys_of 0 Sample.linguistic_twice <$> rows Sample.linguistic_twice
    = keys_of 0 Sample.acoustic_twice <$> rows Sample.acoustic_twice
  ∧ (∀ k, k ∈ common_cols → Sample.numbers k = Sample.numbers k)
  ∧ shape Sample.linguistic_twice = (2%nat, 11%nat)
  ∧ shape Sample.acoustic_twice = (2%nat, 11%nat)
  ∧ ∃ df, merge_predictions 0 Sample.coercible Sample.numbers Sample.numbers
            Sample.linguistic_twice Sample.acoustic_twice = Ok df
          ∧ shape df = (4%nat, 12%nat)
          ∧ (shape df).1 ≠ (shape Sample.linguistic_twice).1.
Proof.
  split; [apply wf_check; vm_compute; reflexivity|].
  split; [apply wf_check; vm_compute; reflexivity|].
  split; [apply has_keys_check; vm_compute; reflexivity|].
  split; [apply has_keys_check; vm_compute; reflexivity|].
  split; [apply unique_disjoint_check; vm_compute; reflexivity|].
  split; [vm_compute; reflexivity|].
  split; [intros k _; reflexivity|].
  split; [reflexivity|]. split; [reflexivity|].
  eexists. split; [vm_compute; reflexivity|]. split; [reflexivity|].
  simpl. lia.
Qed.

(** C9. When one of the ten key columns is missing from either table
    the script stops with a [KeyError] that names missing key columns
    (the schema mismatch): it does not join on the remaining keys, and
    no merged table is produced. *)
Theorem merge_missing_key_fails {V : Type} `{EqDecision V} (nan : V)
    {D : Type} `{EqDecision D} (coercible : D → D → bool) (dtA dtB : string → D)
    (A B : DataFrame V) (k : string) :
  k ∈ common_cols → k ∉ columns A ∨ k ∉ columns B →
  (∃ c missing,
     merge_predictions nan coercible dtA dtB A B = Raise (KeyError (c :: missing))
     ∧ Forall (fun c => c ∈ common_cols ∧ (c ∉ columns A ∨ c ∉ columns B))
              (c :: missing))
  ∧ ∀ df, merge_predictions nan coercible dtA dtB A B ≠ Ok df.
Proof.
  intros Hk Hmiss.
  destruct (merge_predictions_missing nan coercible dtA dtB A B)
    as (c & missing & E & Hall).
  { destruct Hmiss as [Hn|Hn]; [left|right]; intros Hkeys; by apply Hn, Hkeys. }
  split; [by exists c, missing|]. intros df. by rewrite E.
Qed.

Lemma merge_missing_key_fails_witness :
  "text" ∈ common_cols
  ∧ ("text" ∉ columns Sample.acoustic_no_text)
  ∧ merge_predictions 0 Sample.coercible Sample.numbers Sample.numbers Sample.linguistic Sample.acoustic_no_text
    = Raise (KeyError ["text"])
  ∧ ∀ df, merge_predictions 0 Sample.coercible Sample.numbers Sample.numbers Sample.linguistic Sample.acoustic_no_text ≠ Ok df.
Proof.
  assert ("text" ∈ common_cols) as H1
    by (apply (bool_decide_unpack _); vm_compute; reflexivity).
  assert ("text" ∉ columns Sample.acoustic_no_text) as H2
    by (apply (bool_decide_unpack _); vm_compute; reflexivity).
  split; [exact H1|]. split; [exact H2|]. split; [vm_compute; reflexivity|].
  exact (proj2 (merge_missing_key_fails 0 Sample.coercible Sample.numbers Sample.numbers Sample.linguistic Sample.acoustic_no_text
                  "text" H1 (or_intror H2))).
Defined.
End Claims.

(** * Further properties of the extractor *)

Section ParseMore.
Import Grammar.

(** X1. The gender of an accepted file name is read off its eighth
    character: ["male"] exactly when it is [M], ["female"] exactly when
    it is [F], and it is one of the two. *)
Theorem parse_filename_gender filename :
  accepted filename →
  ∃ speaker gender age birth_year,
    parse_filename filename = Ok (Some speaker, Some gender, age, birth_year)
    ∧ (gender = "male" ∨ gender = "female")
    ∧ (gender = "male" ↔ String.get 7 filename = Some "M"%char)
    ∧ (gender = "female" ↔ String.get 7 filename = Some "F"%char).
Proof.
  intros (y & g & n & ext & rest & Hok & ->)%accepted_text.
  destruct (parse_filename_text y g n ext rest Hok) as (b & _ & ->).
  pose proof Hok as (Hy & Hdy & Hg & _).
  destruct (four_digits y Hy Hdy) as (c1 & c2 & c3 & c4 & _ & _ & _ & _ & -> & _).
  exists (String g "" +:+ "_" +:+ n), (gender_of g), (Some (2025 - b)), (Some b).
  split; [done|].
  change (String.get 7 (text _ g n ext rest)) with (Some g). unfold gender_of.
  apply elem_of_cons in Hg as [->|Hg]; [|apply list_elem_of_singleton in Hg as ->];
    simpl; split_and!; try (by left); try (by right); split; done.
Qed.

Lemma parse_filename_gender_witness :
  accepted "G_1988_F_07_st.wav"
  ∧ ∃ speaker gender age birth_year,
      parse_filename "G_1988_F_07_st.wav"
      = Ok (Some speaker, Some gender, age, birth_year)
      ∧ (gender = "male" ∨ gender = "female")
      ∧ (gender = "male" ↔ String.get 7 "G_1988_F_07_st.wav" = Some "M"%char)
      ∧ (gender = "female" ↔ String.get 7 "G_1988_F_07_st.wav" = Some "F"%char).
Proof.
  split; [apply (bool_decide_unpack _); vm_compute; reflexivity|].
  apply (parse_filename_gender "G_1988_F_07_st.wav").
  apply (bool_decide_unpack _); vm_compute; reflexivity.
Defined.

(** X2. The birth year of an accepted file name is the decimal value of
    its characters 3 to 6, between 0 and 9999; the age is 2025 minus it,
    between -7974 and 2025, and negative for a year after 2025. *)
Theorem parse_filename_year_range filename :
  accepted filename →
  ∃ (d1 d2 d3 d4 : nat) speaker gender age birth_year,
    String.get 2 filename ≫= Ascii.is_nat = Some d1
    ∧ String.get 3 filename ≫= Ascii.is_nat = Some d2
    ∧ String.get 4 filename ≫= Ascii.is_nat = Some d3
    ∧ String.get 5 filename ≫= Ascii.is_nat = Some d4
    ∧ parse_filename filename = Ok (speaker, gender, Some age, Some birth_year)
    ∧ birth_year = 1000 * Z.of_nat d1 + 100 * Z.of_nat d2
                   + 10 * Z.of_nat d3 + Z.of_nat d4
    ∧ 0 ≤ birth_year ≤ 9999
    ∧ age = 2025 - birth_year
    ∧ -7974 ≤ age ≤ 2025
    ∧ (age < 0 ↔ 2025 < birth_year).
Proof.
  intros (y & g & n & ext & rest & Hok & ->)%accepted_text.
  destruct (parse_filename_text y g n ext rest Hok) as (b & Hb & ->).
  pose proof Hok as (Hy & Hdy & _).
  destruct (int_four_digits y b Hy Hdy Hb)
    as (c1 & c2 & c3 & c4 & d1 & d2 & d3 & d4 & -> & H1 & H2 & H3 & H4 & Hval & Hrange).
  exists d1, d2, d3, d4, (Some (String g "" +:+ "_" +:+ n)), (Some (gender_of g)),
         (2025 - b), b.
  change (String.get 2 (text _ g n ext rest)) with (Some c1).
  change (String.get 3 (text _ g n ext rest)) with (Some c2).
  change (String.get 4 (text _ g n ext rest)) with (Some c3).
  change (String.get 5 (text _ g n ext rest)) with (Some c4).
  split_and!; try done; lia.
Qed.

Lemma parse_filename_year_range_witness :
  accepted "G_2030_F_1_st.wav"
  ∧ parse_filename "G_2030_F_1_st.wav"
    = Ok (Some "F_1", Some "female", Some (-5), Some 2030)
  ∧ ∃ (d1 d2 d3 d4 : nat) speaker gender age birth_year,
      String.get 2 "G_2030_F_1_st.wav" ≫= Ascii.is_nat = Some d1
      ∧ String.get 3 "G_2030_F_1_st.wav" ≫= Ascii.is_nat = Some d2
      ∧ String.get 4 "G_2030_F_1_st.wav" ≫= Ascii.is_nat = Some d3
      ∧ String.get 5 "G_2030_F_1_st.wav" ≫= Ascii.is_nat = Some d4
      ∧ parse_filename "G_2030_F_1_st.wav"
        = Ok (speaker, gender, Some age, Some birth_year)
      ∧ birth_year = 1000 * Z.of_nat d1 + 100 * Z.of_nat d2
                     + 10 * Z.of_nat d3 + Z.of_nat d4
      ∧ 0 ≤ birth_year ≤ 9999
      ∧ age = 2025 - birth_year
      ∧ -7974 ≤ age ≤ 2025
      ∧ (age < 0 ↔ 2025 < birth_year).
Proof.
  split; [apply (bool_decide_unpack _); vm_compute; reflexivity|].
  split; [vm_compute; reflexivity|].
  apply (parse_filename_year_range "G_2030_F_1_st.wav").
  apply (bool_decide_unpack _); vm_compute; reflexivity.
Defined.
End ParseMore.

Section RunMore.
Import Grammar.

Lemma sorted_Permutation l1 l2 : l1 ≡ₚ l2 → sorted l1 = sorted l2.
Proof.
  intros Hperm. unfold sorted.
  apply (Sorted_unique String.le); [apply Sorted_merge_sort, _..|].
  by rewrite !merge_sort_Permutation.
Qed.

Lemma StronglySorted_filter {X} (R : relation X) (P : X → Prop)
    `{!∀ x, Decision (P x)} (l : list X) :
  StronglySorted R l → StronglySorted R (filter P l).
Proof.
  induction 1 as [|x l Hl IH Hx]; [constructor|].
  rewrite filter_cons. case_decide; [|done].
  constructor; [done|]. apply Forall_forall.
  intros y [_ Hy]%list_elem_of_filter. by eapply Forall_forall in Hx.
Qed.

Lemma StronglySorted_audio_files d : StronglySorted String.le (audio_files d).
Proof. apply StronglySorted_merge_sort; apply _. Qed.

Lemma StronglySorted_kept d : StronglySorted String.le (kept d).
Proof. apply StronglySorted_filter, StronglySorted_audio_files. Qed.

Lemma compare_app p a b : String.compare (p +:+ a) (p +:+ b) = String.compare a b.
Proof.
  induction p as [|c p IH]; [done|]. rewrite !app_String. simpl.
  assert (Ascii.compare c c = Eq) as ->
    by (unfold Ascii.compare; apply N.compare_refl).
  done.
Qed.

Lemma le_app p a b : String.le (p +:+ a) (p +:+ b) ↔ String.le a b.
Proof. unfold String.le, String.leb. by rewrite compare_app. Qed.

Lemma file_of_prefix p f : file_of p f = file_prefix p +:+ f.
Proof.
  unfold file_of, file_prefix, tail_part, str. simpl.
  destruct (last (parts p)) as [dir|]; simpl; [|done].
  unfold join. simpl. by rewrite app_assoc'.
Qed.
End RunMore.

Section RunExtras.
Import Grammar.

(** X3. A run of the extractor ends in one of five ways. The scanned
    path cannot be examined: [FileNotFoundError] when [os.stat] says
    that nothing is there, else the [OSError] of [os.stat], and nothing
    is printed. The path is there: the [OSError] of the first kept audio
    file whose transcript cannot be examined; or, when all can, the
    [KeyError] for the six record keys when no audio file has an
    accepted name, and a table when one has. Nothing else is raised,
    and what was printed before the call stays. *)
Theorem process_database_outcomes data_path fs out :
  ∃ res printed,
    process_database data_path fs out = (res, out ++ printed)
    ∧ ((∃ errno, fs = NoStat errno ∧ errno ∈ _IGNORED_ERRNOS
                 ∧ res = Raise FileNotFoundError ∧ printed = [])
       ∨ (∃ errno, fs = NoStat errno ∧ (errno ∉ _IGNORED_ERRNOS)
                   ∧ res = Raise (OSError errno) ∧ printed = [])
       ∨ (∃ d pre f post errno,
            fs = Dir d ∧ audio_files d = pre ++ f :: post
            ∧ Forall (passable d) pre ∧ accepted f
            ∧ stat_error d f = Some (OSError errno) ∧ (errno ∉ _IGNORED_ERRNOS)
            ∧ res = Raise (OSError errno))
       ∨ (∃ d, fs = Dir d ∧ examinable d ∧ (∀ f, f ∈ audio_files d → ¬ accepted f)
               ∧ res = Raise (KeyError ["file"; "speaker"; "gender"; "age";
                                        "birth_year"; "transcription"]))
       ∨ (∃ d df, fs = Dir d ∧ examinable d ∧ (∃ f, f ∈ audio_files d ∧ accepted f)
                  ∧ res = Ok df)).
Proof.
  destruct fs as [errno|d].
  { rewrite process_database_NoStat. eexists _, []. rewrite app_nil_r.
    split; [done|]. case_decide; [left|right; left]; by exists errno. }
  destruct (examinable_or_first d)
    as [Hex|(pre & f & post & e & Hfiles & Hpre & Hacc & He)]; cycle 1.
  { rewrite (process_database_abort data_path d pre f post e) by done.
    destruct (stat_error_Some d f e He) as (errno & msg & _ & Hn & ->).
    eexists _, _. split; [done|]. do 2 right. left.
    by exists d, pre, f, post, errno. }
  rewrite process_database_found by done. eexists _, _. split; [done|].
  do 3 right. destruct (kept d) as [|f fs] eqn:E.
  - left. exists d. split; [done|]. split; [done|]. split; [|done]. intros f Hf Hacc.
    assert (f ∈ kept d) as Hk by by apply elem_of_kept.
    rewrite E in Hk. by apply elem_of_nil in Hk.
  - right. exists d, (table data_path d). split; [done|]. split; [done|].
    split; [|done].
    exists f. assert (f ∈ kept d) as [??]%elem_of_kept by (rewrite E; left). done.
Qed.

(** X4. The table that a run returns has one row for each entry of the
    directory whose name ends in [.WAV] or [.wav] and is accepted, and
    no other row; the rows are in ascending order of the file name and
    of the file key, which is the name of the scanned directory, a
    slash, and the file name. *)
Theorem table_rows_sorted data_path d out df out' :
  process_database data_path (Dir d) out = (Ok df, out') →
  ∃ names,
    index df = Some ("file", (fun f => VStr (file_prefix data_path +:+ f)) <$> names)
    ∧ rows df = row_of d <$> names
    ∧ StronglySorted String.le names
    ∧ StronglySorted String.le ((fun f => file_prefix data_path +:+ f) <$> names)
    ∧ NoDup names
    ∧ ∀ f, f ∈ names
           ↔ is_Some (d !! f) ∧ (endswith f ".WAV" ∨ endswith f ".wav") ∧ accepted f.
Proof.
  intros (d' & [= <-] & _ & -> & _)%process_database_Ok. exists (kept d). split_and!.
  - simpl. do 2 f_equal. apply list_fmap_ext. intros _ f _.
    by rewrite file_of_prefix.
  - done.
  - apply StronglySorted_kept.
  - pose proof (StronglySorted_kept d) as Hs.
    induction Hs as [|f l Hl IH Hf]; [constructor|]. rewrite fmap_cons.
    constructor; [done|]. apply Forall_fmap, Forall_forall. intros g Hg. simpl.
    apply le_app. by eapply Forall_forall in Hf.
  - apply NoDup_kept.
  - intros f. rewrite elem_of_kept, elem_of_audio_files. tauto.
Qed.

Lemma table_rows_sorted_witness :
  process_database Sample.data (Dir Sample.corpus) []
  = (Ok (table Sample.data Sample.corpus),
     ["Found 3 audio files";
      "Warning: No transcription file found for G_1988_F_07_st.wav";
      "Warning: Could not parse filename: random_file.WAV"])
  ∧ ∃ names,
      index (table Sample.data Sample.corpus)
      = Some ("file", (fun f => VStr (file_prefix Sample.data +:+ f)) <$> names)
      ∧ rows (table Sample.data Sample.corpus) = row_of Sample.corpus <$> names
      ∧ StronglySorted String.le names
      ∧ StronglySorted String.le ((fun f => file_prefix Sample.data +:+ f) <$> names)
      ∧ NoDup names
      ∧ ∀ f, f ∈ names
             ↔ is_Some (Sample.corpus !! f)
               ∧ (endswith f ".WAV" ∨ endswith f ".wav") ∧ accepted f.
Proof.
  split; [vm_compute; reflexivity|].
  apply (table_rows_sorted Sample.data Sample.corpus [] _
           ["Found 3 audio files";
            "Warning: No transcription file found for G_1988_F_07_st.wav";
            "Warning: Could not parse filename: random_file.WAV"]).
  vm_compute; reflexivity.
Defined.

(** X5. Where the scanned directory lies does not matter to the table:
    two scanned paths with the same last component give the same table
    for the same entries. *)
Theorem table_independent_of_location p p' d out df out' :
  last (parts p) = last (parts p') →
  process_database p (Dir d) out = (Ok df, out') →
  ∃ out'', process_database p' (Dir d) out = (Ok df, out'').
Proof.
  intros Hlast (d' & [= <-] & Hk & -> & Hex)%process_database_Ok.
  rewrite process_database_found by done. eexists. destruct (kept d); [done|].
  do 2 f_equal. unfold table. do 3 f_equal. apply list_fmap_ext. intros _ f _.
  rewrite !file_of_prefix. unfold file_prefix. by rewrite Hlast.
Qed.

Lemma table_independent_of_location_witness :
  last (parts Sample.data) = last (parts (mkPath "/" ["srv"; "corpus"; "data"]))
  ∧ ∃ out'', process_database (mkPath "/" ["srv"; "corpus"; "data"])
               (Dir Sample.corpus) []
             = (Ok (table Sample.data Sample.corpus), out'').
Proof.
  split; [reflexivity|].
  apply (table_independent_of_location Sample.data _ Sample.corpus [] _
           ["Found 3 audio files";
            "Warning: No transcription file found for G_1988_F_07_st.wav";
            "Warning: Could not parse filename: random_file.WAV"]);
    [reflexivity|vm_compute; reflexivity].
Defined.
End RunExtras.

Section LogExtras.
Import Grammar.

Lemma length_kept_skipped d :
  length (audio_files d) = (length (kept d) + length (skipped d))%nat.
Proof.
  unfold kept, skipped. rewrite <- length_app.
  by rewrite (filter_app_complement accepted (audio_files d)).
Qed.

Lemma elem_of_skipped d f : f ∈ skipped d ↔ ¬ accepted f ∧ f ∈ audio_files d.
Proof. apply (list_elem_of_filter (fun f => ¬ accepted f)). Qed.

(** The warning of a skipped file is no other line of the log. *)
Lemma parse_warning_only data_path d f g :
  "Warning: Could not parse filename: " +:+ f ∈ diag_of data_path d g →
  ¬ accepted g ∧ g = f.
Proof.
  unfold diag_of, transcript_diag. case_decide as Hacc.
  - destruct (d !! txt_name g) as [[content|e|errno e]|].
    + by intros ?%elem_of_nil.
    + intros H%list_elem_of_singleton. vm_compute in H. discriminate H.
    + intros H%list_elem_of_singleton. vm_compute in H. discriminate H.
    + intros H%list_elem_of_singleton. vm_compute in H. discriminate H.
  - intros H%list_elem_of_singleton. split; [done|].
    by apply (inj (String.app "Warning: Could not parse filename: ")) in H.
Qed.

(** X6. The first line that a run prints counts every entry that ends in
    [.WAV] or [.wav], accepted or not: it is the number of rows of the
    table plus the number of skipped files. The lines after it hold the
    warning of skipped files only, and, when the existence test answers
    for every transcript, of a file exactly when it was skipped. *)
Theorem found_line_counts data_path d out res out' :
  process_database data_path (Dir d) out = (res, out') →
  ∃ n diags,
    out' = out ++ ("Found " +:+ pretty n +:+ " audio files") :: diags
    ∧ n = (length (kept d) + length (skipped d))%nat
    ∧ (∀ df, res = Ok df → n = (length (rows df) + length (skipped d))%nat)
    ∧ (∀ f, "Warning: Could not parse filename: " +:+ f ∈ diags → f ∈ skipped d)
    ∧ (examinable d →
       ∀ f, "Warning: Could not parse filename: " +:+ f ∈ diags ↔ f ∈ skipped d).
Proof.
  intros Hrun.
  assert (∀ files, files ⊆ audio_files d →
            ∀ f, "Warning: Could not parse filename: " +:+ f
                 ∈ files ≫= diag_of data_path d → f ∈ skipped d) as Honly.
  { intros files Hsub f (g & [Hacc ->]%parse_warning_only & Hg)%list_elem_of_bind.
    apply elem_of_skipped. split; [done|]. by apply Hsub. }
  destruct (examinable_or_first d)
    as [Hex|(pre & g & post & e & Hfiles & Hpre & Hacc & He)].
  - rewrite process_database_found in Hrun by done. injection Hrun as <- <-.
    exists (length (glob d ".WAV" ++ glob d ".wav")),
           (audio_files d ≫= diag_of data_path d).
    split_and!.
    + done.
    + by rewrite <- length_audio_files, length_kept_skipped.
    + intros df Hdf.
      assert (df = table data_path d) as -> by (destruct (kept d); by simplify_eq).
      simpl. by rewrite length_fmap, <- length_audio_files, length_kept_skipped.
    + by apply Honly.
    + intros _ f. split; [by apply Honly|].
      intros [Hnacc Hf]%elem_of_skipped. apply list_elem_of_bind.
      exists f. split; [|done]. unfold diag_of.
      rewrite decide_False by done. by left.
  - rewrite (process_database_abort data_path d pre g post e) in Hrun by done.
    injection Hrun as <- <-.
    exists (length (glob d ".WAV" ++ glob d ".wav")), (pre ≫= diag_of data_path d).
    split_and!.
    + done.
    + by rewrite <- length_audio_files, length_kept_skipped.
    + done.
    + apply Honly. rewrite Hfiles. intros x Hx. apply elem_of_app. by left.
    + intros Hex. exfalso. eapply Forall_forall in Hex.
      * by rewrite He in Hex.
      * apply elem_of_kept. split; [done|]. rewrite Hfiles, elem_of_app.
        right. by left.
Qed.

Lemma found_line_counts_witness :
  process_database Sample.data (Dir Sample.corpus) []
  = (Ok (table Sample.data Sample.corpus),
     ["Found 3 audio files";
      "Warning: No transcription file found for G_1988_F_07_st.wav";
      "Warning: Could not parse filename: random_file.WAV"])
  ∧ ∃ n diags,
      ["Found 3 audio files";
       "Warning: No transcription file found for G_1988_F_07_st.wav";
       "Warning: Could not parse filename: random_file.WAV"]
      = [] ++ ("Found " +:+ pretty n +:+ " audio files") :: diags
      ∧ n = (length (kept Sample.corpus) + length (skipped Sample.corpus))%nat
      ∧ (∀ df, Ok (table Sample.data Sample.corpus) = Ok df →
               n = (length (rows df) + length (skipped Sample.corpus))%nat)
      ∧ (∀ f, "Warning: Could not parse filename: " +:+ f ∈ diags
              → f ∈ skipped Sample.corpus)
      ∧ (examinable Sample.corpus →
         ∀ f, "Warning: Could not parse filename: " +:+ f ∈ diags
              ↔ f ∈ skipped Sample.corpus).
Proof.
  split; [vm_compute; reflexivity|].
  apply (found_line_counts Sample.data Sample.corpus []).
  vm_compute; reflexivity.
Defined.
End LogExtras.

(** ** [strip] and [read_transcription] *)

Section StripFacts.

Lemma app_empty_r (s : string) : s +:+ "" = s.
Proof. induction s as [|c s IH]; [done|]. rewrite app_String. by f_equal. Qed.

Lemma rev_app_spec s acc : String.rev_app s acc = String.rev s +:+ acc.
Proof.
  unfold String.rev. revert acc. induction s as [|c s IH]; intros acc; [done|].
  simpl. rewrite IH, (IH (String c "")), app_assoc'. done.
Qed.

Lemma rev_String c s : String.rev (String c s) = String.rev s +:+ String c "".
Proof. unfold String.rev at 1. simpl. apply rev_app_spec. Qed.

Lemma rev_append a b : String.rev (a +:+ b) = String.rev b +:+ String.rev a.
Proof.
  induction a as [|c a IH]; [by rewrite app_empty_l, app_empty_r|].
  rewrite app_String, !rev_String, IH, app_assoc'. done.
Qed.

Lemma rev_involutive s : String.rev (String.rev s) = s.
Proof.
  induction s as [|c s IH]; [done|]. rewrite rev_String, rev_append, IH. done.
Qed.

Lemma all_space_app a b : all_space (a +:+ b) = all_space a && all_space b.
Proof.
  induction a as [|c a IH]; [done|]. rewrite app_String. simpl.
  by rewrite IH, andb_assoc.
Qed.

Lemma all_space_rev a : all_space (String.rev a) = all_space a.
Proof.
  induction a as [|c a IH]; [done|]. rewrite rev_String, all_space_app, IH. simpl.
  rewrite andb_true_r. apply andb_comm.
Qed.

Lemma lstrip_split s : ∃ a, all_space a ∧ s = a +:+ lstrip s.
Proof.
  induction s as [|c s (a & Ha & IH)]; [by exists ""|]. simpl.
  destruct (isspace c) eqn:E.
  - exists (String c a). simpl. rewrite E, app_String, <- IH. done.
  - by exists "".
Qed.

Lemma lstrip_head s c t : lstrip s = String c t → ¬ isspace c.
Proof.
  induction s as [|c' s IH]; [done|]. simpl. destruct (isspace c') eqn:E; [done|].
  intros [= <- _]. rewrite E. intros [].
Qed.

Lemma get_last s c : String.get (String.length (s +:+ String c "") - 1) (s +:+ String c "")
                     = Some c.
Proof.
  induction s as [|x s IH]; [done|]. rewrite app_String.
  rewrite length_app' in IH. simpl in IH. cbn [String.length].
  rewrite length_app'. simpl.
  replace (String.length s + 1 - 0)%nat with (S (String.length s + 1 - 1)) by lia.
  done.
Qed.

(** [strip] takes white space off both ends and nothing else. *)
Lemma strip_spec s :
  ∃ a b,
    all_space a ∧ all_space b ∧ s = a +:+ strip s +:+ b
    ∧ (∀ c, String.get 0 (strip s) = Some c → ¬ isspace c)
    ∧ (∀ c, String.get (String.length (strip s) - 1) (strip s) = Some c → ¬ isspace c).
Proof.
  destruct (lstrip_split s) as (a & Ha & Hs).
  destruct (lstrip_split (String.rev (lstrip s))) as (b & Hb & Hr).
  assert (lstrip s = strip s +:+ String.rev b) as Ht.
  { unfold strip. rewrite <- rev_append, <- Hr. by rewrite rev_involutive. }
  exists a, (String.rev b). split; [done|]. split; [by rewrite all_space_rev|].
  split; [by rewrite <- Ht|]. split.
  - intros c Hc. destruct (strip s) as [|c' t] eqn:E; [done|].
    injection Hc as ->. rewrite app_String in Ht. by eapply lstrip_head.
  - intros c. unfold strip.
    destruct (lstrip (String.rev (lstrip s))) as [|c' u] eqn:E; [done|].
    rewrite rev_String, get_last. intros [= <-]. by eapply lstrip_head.
Qed.

End StripFacts.

Section TranscriptExtras.
Import Grammar.

(** X7. [read_transcription] never raises. For a readable file it prints
    nothing and returns the content without the white space at its two
    ends, and with everything between kept; for a file that is missing
    or cannot be read it prints one warning and returns the empty text. *)
Theorem read_transcription_result d txt_path out :
  ∃ t printed,
    read_transcription d txt_path out = (Ok t, out ++ printed)
    ∧ (∀ content, d !! name txt_path = Some (Readable content) →
         printed = []
         ∧ ∃ a b, all_space a ∧ all_space b ∧ content = a +:+ t +:+ b
                  ∧ (∀ c, String.get 0 t = Some c → ¬ isspace c)
                  ∧ (∀ c, String.get (String.length t - 1) t = Some c → ¬ isspace c))
    ∧ ((∀ content, d !! name txt_path ≠ Some (Readable content)) →
       t = "" ∧ length printed = 1%nat).
Proof.
  unfold read_transcription. destruct (d !! name txt_path) as [[content|e|errno e]|].
  - exists (strip content), []. rewrite app_nil_r. split; [done|]. split.
    + intros ? [= <-]. split; [done|]. apply strip_spec.
    + intros Hn. by destruct (Hn content).
  - eexists "", [_]. split; [done|]. split; [done|]. done.
  - eexists "", [_]. split; [done|]. split; [done|]. done.
  - eexists "", [_]. split; [done|]. split; [done|]. done.
Qed.

(** X20. When the existence test answers for every transcript, an
    accepted audio file whose transcript (the entry with the same stem
    and the extension [.txt]) is absent, or present but unreadable,
    still gets its row, the same in both cases: the fields of its name
    and the empty transcription. A diagnostic is printed and the run
    returns its table. *)
Theorem missing_transcript_is_soft data_path d out filename :
  examinable d → filename ∈ audio_files d → accepted filename →
  d !! txt_name filename = None
  ∨ (∃ e, d !! txt_name filename = Some (Unreadable e)) →
  ∃ out' df files i speaker gender age birth_year,
    process_database data_path (Dir d) out = (Ok df, out')
    ∧ (∃ stem ext, filename = stem +:+ "." +:+ ext
                   ∧ txt_name filename = stem +:+ ".txt")
    ∧ index df = Some ("file", files)
    ∧ files !! i = Some (VStr (file_of data_path filename))
    ∧ parse_filename filename
      = Ok (Some speaker, Some gender, Some age, Some birth_year)
    ∧ rows df !! i = Some [VStr speaker; VStr gender; VInt age; VInt birth_year;
                           VStr "unknown"; VStr ""]
    ∧ (d !! txt_name filename = None →
       "Warning: No transcription file found for " +:+ filename ∈ out')
    ∧ (∀ e, d !! txt_name filename = Some (Unreadable e) →
            "Warning: Could not read "
              +:+ str (child data_path (txt_name filename)) +:+ ": " +:+ e ∈ out').
Proof.
  intros Hex Hin Hacc Htxt. assert (filename ∈ kept d) as Hk by by apply elem_of_kept.
  destruct (process_database_kept data_path d filename out Hex Hk)
    as (out' & Hrun & Hdiag).
  destruct (table_lookup data_path d filename Hk) as (i & Hi & Hrow).
  destruct (row_of_accepted d filename Hacc) as (sp & g & a & b & Hp & Hr).
  exists out', (table data_path d), ((fun f => VStr (file_of data_path f)) <$> kept d),
         i, sp, g, a, b.
  split_and!; try done.
  - destruct (txt_name_audio d filename Hin Hacc) as (stem & ext & _ & ? & ?).
    by exists stem, ext.
  - rewrite Hrow, Hr. unfold transcription_of.
    by destruct Htxt as [->|[e ->]].
  - intros E. apply Hdiag. eapply diag_of_emitted; [done|].
    unfold diag_of, transcript_diag. rewrite decide_True, E by done. by left.
  - intros e E. apply Hdiag. eapply diag_of_emitted; [done|].
    unfold diag_of, transcript_diag. rewrite decide_True, E by done. by left.
Qed.

Lemma missing_transcript_is_soft_witness :
  examinable Sample.corpus_unreadable
  ∧ "G_1988_F_07_st.wav" ∈ audio_files Sample.corpus_unreadable
  ∧ accepted "G_1988_F_07_st.wav"
  ∧ Sample.corpus_unreadable !! txt_name "G_1988_F_07_st.wav"
    = Some (Unreadable "[Errno 13] Permission denied")
  ∧ ∃ out' df files i speaker gender age birth_year,
      process_database Sample.data (Dir Sample.corpus_unreadable) [] = (Ok df, out')
      ∧ (∃ stem ext, "G_1988_F_07_st.wav" = stem +:+ "." +:+ ext
                     ∧ txt_name "G_1988_F_07_st.wav" = stem +:+ ".txt")
      ∧ index df = Some ("file", files)
      ∧ files !! i = Some (VStr (file_of Sample.data "G_1988_F_07_st.wav"))
      ∧ parse_filename "G_1988_F_07_st.wav"
        = Ok (Some speaker, Some gender, Some age, Some birth_year)
      ∧ rows df !! i = Some [VStr speaker; VStr gender; VInt age; VInt birth_year;
                             VStr "unknown"; VStr ""]
      ∧ (Sample.corpus_unreadable !! txt_name "G_1988_F_07_st.wav" = None →
         "Warning: No transcription file found for " +:+ "G_1988_F_07_st.wav" ∈ out')
      ∧ (∀ e, Sample.corpus_unreadable !! txt_name "G_1988_F_07_st.wav"
              = Some (Unreadable e) →
              "Warning: Could not read "
                +:+ str (child Sample.data (txt_name "G_1988_F_07_st.wav"))
                +:+ ": " +:+ e ∈ out').
Proof.
  assert (examinable Sample.corpus_unreadable) as Hex.
  { apply examinable_check. vm_compute; reflexivity. }
  assert ("G_1988_F_07_st.wav" ∈ audio_files Sample.corpus_unreadable) as Hin.
  { apply (bool_decide_unpack _). vm_compute; reflexivity. }
  assert (accepted "G_1988_F_07_st.wav") as Hacc.
  { apply (bool_decide_unpack _). vm_compute; reflexivity. }
  assert (Sample.corpus_unreadable !! txt_name "G_1988_F_07_st.wav"
          = Some (Unreadable "[Errno 13] Permission denied")) as Htxt.
  { vm_compute; reflexivity. }
  split; [exact Hex|].
  split; [exact Hin|]. split; [exact Hacc|]. split; [exact Htxt|].
  apply (missing_transcript_is_soft Sample.data Sample.corpus_unreadable []
           "G_1988_F_07_st.wav" Hex Hin Hacc).
  right. exists "[Errno 13] Permission denied". exact Htxt.
Defined.

Lemma text_stem y g n ext :
  text y g n ext ""
  = ("G_" +:+ y +:+ "_" +:+ String g ("_" +:+ n +:+ "_st")) +:+ "." +:+ ext.
Proof.
  unfold text. rewrite app_empty_r. symmetry.
  rewrite !app_assoc', (app_String g), !app_assoc'. reflexivity.
Qed.
End TranscriptExtras.

Section BothExtensions.
Import Grammar.

Lemma endswith_app_r s suffix : endswith (s +:+ suffix) suffix.
Proof.
  unfold endswith. apply bool_decide_pack. rewrite length_app'. split; [|lia].
  replace (String.length s + String.length suffix - String.length suffix)%nat
    with (String.length s) by lia.
  by rewrite substring_app_skip, substring_all.
Qed.

Lemma fields_ok_ext y g n ext ext' :
  fields_ok y g n ext → ext' ∈ ["WAV"; "wav"] → fields_ok y g n ext'.
Proof. intros (? & ? & ? & ? & ? & _) ?. by repeat split. Qed.

Lemma fields_of_text y g n ext ext' rest rest' :
  fields_ok y g n ext → fields_ok y g n ext' →
  fields_of (text y g n ext rest) = fields_of (text y g n ext' rest').
Proof.
  intros Hok Hok'. unfold fields_of.
  destruct (parse_filename_text y g n ext rest Hok) as (b & Hb & ->).
  destruct (parse_filename_text y g n ext' rest' Hok') as (b' & Hb' & ->).
  congruence.
Qed.

(** X8. A recording that is in the directory under both extensions,
    [<stem>.WAV] and [<stem>.wav], gets two rows: they have different
    file keys and are equal in every column, since both read the one
    transcript [<stem>.txt]. *)
Theorem both_extensions_two_rows data_path d out y g n :
  examinable d → fields_ok y g n "WAV" →
  is_Some (d !! text y g n "WAV" "") → is_Some (d !! text y g n "wav" "") →
  txt_name (text y g n "WAV" "") = txt_name (text y g n "wav" "")
  ∧ ∃ out' df files i j row,
      process_database data_path (Dir d) out = (Ok df, out')
      ∧ index df = Some ("file", files)
      ∧ i ≠ j
      ∧ files !! i = Some (VStr (file_prefix data_path +:+ text y g n "WAV" ""))
      ∧ files !! j = Some (VStr (file_prefix data_path +:+ text y g n "wav" ""))
      ∧ rows df !! i = Some row ∧ rows df !! j = Some row.
Proof.
  intros Hex Hok Ha Hb.
  assert (fields_ok y g n "wav") as Hok'.
  { eapply fields_ok_ext; [done|]. right. by left. }
  assert (txt_name (text y g n "WAV" "") = txt_name (text y g n "wav" "")) as Htxt.
  { rewrite !text_stem, !txt_name_ext; [done|done|right; by left|done|by left]. }
  split; [done|].
  assert (text y g n "WAV" "" ∈ kept d) as Hka.
  { apply elem_of_kept. split; [eexists; by apply re_match_text|].
    apply elem_of_audio_files. split; [done|]. left.
    rewrite text_stem. apply (endswith_app_r _ ".WAV"). }
  assert (text y g n "wav" "" ∈ kept d) as Hkb.
  { apply elem_of_kept. split; [eexists; by apply re_match_text|].
    apply elem_of_audio_files. split; [done|]. right.
    rewrite text_stem. apply (endswith_app_r _ ".wav"). }
  destruct (process_database_kept data_path d _ out Hex Hka) as (out' & Hrun & _).
  destruct (table_lookup data_path d _ Hka) as (i & Hi & Hri).
  destruct (table_lookup data_path d _ Hkb) as (j & Hj & Hrj).
  exists out', (table data_path d), ((fun f => VStr (file_of data_path f)) <$> kept d),
         i, j, (row_of d (text y g n "WAV" "")).
  split_and!; try done.
  - intros ->. rewrite Hi in Hj. injection Hj as Hj.
    apply file_of_inj in Hj. unfold text in Hj.
    apply (inj (String.app "G_")), (inj (String.app y)), (inj (String.app "_")) in Hj.
    injection Hj as Hj. rewrite !app_empty_l in Hj.
    apply (inj (String.app n)) in Hj. discriminate Hj.
  - by rewrite <- file_of_prefix.
  - by rewrite <- file_of_prefix.
  - rewrite Hrj. f_equal. unfold row_of, transcription_of.
    rewrite (fields_of_text y g n "wav" "WAV" "" "") by done. by rewrite Htxt.
Qed.

Lemma both_extensions_two_rows_witness :
  examinable (<["G_1991_M_26_st.wav" := Readable ""]> Sample.corpus)
  ∧ fields_ok "1991" "M" "26" "WAV"
  ∧ is_Some (<["G_1991_M_26_st.wav" := Readable ""]> Sample.corpus
               !! text "1991" "M" "26" "WAV" "")
  ∧ is_Some (<["G_1991_M_26_st.wav" := Readable ""]> Sample.corpus
               !! text "1991" "M" "26" "wav" "")
  ∧ txt_name (text "1991" "M" "26" "WAV" "") = txt_name (text "1991" "M" "26" "wav" "").
Proof.
  assert (examinable (<["G_1991_M_26_st.wav" := Readable ""]> Sample.corpus)) as Hex
    by (apply examinable_check; vm_compute; reflexivity).
  assert (fields_ok "1991" "M" "26" "WAV") as Hok.
  { unfold fields_ok. split_and!; [reflexivity|exact I| |discriminate|exact I|].
    - apply elem_of_cons. by left.
    - apply elem_of_cons. by left. }
  assert (is_Some (<["G_1991_M_26_st.wav" := Readable ""]> Sample.corpus
                     !! text "1991" "M" "26" "WAV" "")) as Ha
    by (apply (bool_decide_unpack _); vm_compute; reflexivity).
  assert (is_Some (<["G_1991_M_26_st.wav" := Readable ""]> Sample.corpus
                     !! text "1991" "M" "26" "wav" "")) as Hb
    by (apply (bool_decide_unpack _); vm_compute; reflexivity).
  split; [exact Hex|]. split; [exact Hok|]. split; [exact Ha|]. split; [exact Hb|].
  exact (proj1 (both_extensions_two_rows Sample.data _ [] "1991" "M" "26"
                  Hex Hok Ha Hb)).
Defined.
End BothExtensions.

Section Frame.
Import Grammar.

Lemma elem_of_glob d suffix f : f ∈ glob d suffix ↔ endswith f suffix ∧ is_Some (d !! f).
Proof.
  unfold glob. rewrite <- elem_of_listdir.
  apply (list_elem_of_filter (fun name => endswith name suffix)).
Qed.

Lemma glob_agree d1 d2 suffix :
  (∀ f, endswith f suffix → d1 !! f = d2 !! f) → glob d1 suffix ≡ₚ glob d2 suffix.
Proof.
  intros Hagree.
  apply NoDup_Permutation; [apply NoDup_filter, NoDup_listdir..|].
  intros f. rewrite !elem_of_glob. split; intros [Hend Hf]; (split; [done|]).
  - by rewrite <- Hagree.
  - by rewrite Hagree.
Qed.

Lemma transcript_relevant d f :
  f ∈ audio_files d → accepted f → relevant (txt_name f).
Proof.
  intros Hf Hacc. destruct (txt_name_audio d f Hf Hacc) as (stem & ext & _ & _ & ->).
  right. right. apply endswith_app_r.
Qed.

Lemma loop_agree data_path d1 d2 files records out :
  (∀ f, f ∈ files → accepted f → d1 !! txt_name f = d2 !! txt_name f) →
  loop data_path d1 files records out = loop data_path d2 files records out.
Proof.
  revert records out. induction files as [|f files IH]; intros records out Hagree.
  { done. }
  assert (∀ g, g ∈ files → accepted g → d1 !! txt_name g = d2 !! txt_name g) as Hrest.
  { intros g Hg. apply Hagree. by right. }
  rewrite !loop_head. case_decide as Hacc; [|by apply IH].
  assert (d1 !! txt_name f = d2 !! txt_name f) as Hf by (apply Hagree; [left|done]).
  unfold stat_error, stat, transcript_diag, record_of, transcription_of.
  rewrite Hf. destruct (exists_ _); [|done]. by apply IH.
Qed.

(** X9. The extractor looks at no entry but those whose names end in
    [.WAV], [.wav] or [.txt]: two directories that agree on these give
    the same result and the same printed lines. *)
Theorem other_entries_ignored data_path d1 d2 out :
  (∀ f, relevant f → d1 !! f = d2 !! f) →
  process_database data_path (Dir d1) out = process_database data_path (Dir d2) out.
Proof.
  intros Hagree.
  assert (glob d1 ".WAV" ++ glob d1 ".wav" ≡ₚ glob d2 ".WAV" ++ glob d2 ".wav") as Hperm.
  { apply Permutation_app; apply glob_agree; intros f Hf; apply Hagree.
    - by left.
    - right. by left. }
  assert (audio_files d1 = audio_files d2) as Haudio by by apply sorted_Permutation.
  assert (∀ f, f ∈ audio_files d1 → accepted f →
               d1 !! txt_name f = d2 !! txt_name f) as Htxt.
  { intros f Hf Hacc. apply Hagree. by eapply transcript_relevant. }
  unfold process_database. rewrite (Permutation_length Hperm).
  unfold mbind at 1 3, M_bind at 1 3, print at 1 2.
  fold (audio_files d1) (audio_files d2).
  unfold mbind at 1 3, M_bind at 1 3.
  by rewrite (loop_agree data_path d1 d2 (audio_files d1)), Haudio.
Qed.

Lemma other_entries_ignored_witness :
  (∀ f, relevant f → Sample.corpus !! f = delete "notes.md" Sample.corpus !! f)
  ∧ process_database Sample.data (Dir Sample.corpus) []
    = process_database Sample.data (Dir (delete "notes.md" Sample.corpus)) [].
Proof.
  assert (∀ f, relevant f → Sample.corpus !! f = delete "notes.md" Sample.corpus !! f)
    as Hagree.
  { intros f Hf. symmetry. apply lookup_delete_ne. intros <-.
    destruct Hf as [Hf|[Hf|Hf]]; vm_compute in Hf; exact Hf. }
  split; [exact Hagree|].
  exact (other_entries_ignored Sample.data _ _ [] Hagree).
Defined.

(** X10. The order in which the directory lists its entries does not
    matter: from any listing of the entries the loop goes through the
    audio files in the same order, ascending by name. *)
Theorem listing_order_irrelevant d listing :
  listing ≡ₚ listdir d →
  sorted (filter (fun name => endswith name ".WAV") listing
          ++ filter (fun name => endswith name ".wav") listing)
  = audio_files d
  ∧ StronglySorted String.le (audio_files d).
Proof.
  intros Hperm. split; [|apply StronglySorted_audio_files].
  apply sorted_Permutation. unfold glob. by rewrite Hperm.
Qed.

Lemma listing_order_irrelevant_witness :
  reverse (listdir Sample.corpus) ≡ₚ listdir Sample.corpus
  ∧ sorted (filter (fun name => endswith name ".WAV") (reverse (listdir Sample.corpus))
            ++ filter (fun name => endswith name ".wav") (reverse (listdir Sample.corpus)))
    = audio_files Sample.corpus.
Proof.
  assert (reverse (listdir Sample.corpus) ≡ₚ listdir Sample.corpus) as Hperm
    by apply reverse_Permutation.
  split; [exact Hperm|].
  exact (proj1 (listing_order_irrelevant Sample.corpus _ Hperm)).
Defined.
End Frame.

(** * Further properties of the merger *)

Section MergeMore.
Context {V : Type} `{EqDecision V} (nan : V).
Implicit Types A B : DataFrame V.

Lemma col_index_app_r c cols cols' :
  c ∉ cols → col_index c (cols ++ cols') = (fun i => length cols + i)%nat <$> col_index c cols'.
Proof.
  intros Hc. induction cols as [|c' cols IH]; simpl.
  - by destruct (col_index c cols').
  - apply not_elem_of_cons in Hc as [? ?]. rewrite decide_False by done.
    rewrite IH by done. by destruct (col_index c cols').
Qed.

Lemma cell_app_r cols cols' (l r : list V) c :
  c ∉ cols → length l = length cols →
  cell nan (cols ++ cols') (l ++ r) c = cell nan cols' r c.
Proof.
  intros Hc Hlen. unfold cell. rewrite col_index_app_r by done.
  destruct (col_index c cols') as [i|]; [|done]. simpl.
  by rewrite lookup_app_r, <- Hlen, Nat.add_comm, Nat.add_sub by lia.
Qed.

Lemma length_unique_of B r : length (unique_of nan B r) = length (unique_cols B).
Proof. unfold unique_of. by rewrite length_fmap. Qed.

Lemma unique_disjoint_columns A B c :
  unique_disjoint A B → c ∈ columns A → c ∉ unique_cols B.
Proof.
  intros Hdis Hc Hu. apply (Hdis c); [|done]. apply elem_of_unique_cols.
  split; [|done]. by apply elem_of_unique_cols in Hu as [? _].
Qed.

End MergeMore.

(** X11. When both tables have the keys and share no other column, the
    script has one of two ends. If the dtypes of the key columns go
    together, or a table has no row, the result has the columns of the
    first table in their order and then the other columns of the second
    in theirs, every label once, and each of its rows has one cell per
    column. Else, with rows in both tables and a key whose two columns
    have different dtypes that [pd.merge] does not bring together, the
    script stops with a [ValueError] and writes nothing. *)
Theorem merge_result_schema {V : Type} `{EqDecision V} (nan : V)
    {D : Type} `{EqDecision D} (coercible : D → D → bool) (dtA dtB : string → D)
    (A B : DataFrame V) :
  wf A → wf B → has_keys A → has_keys B → unique_disjoint A B →
  (joinable coercible dtA dtB A B →
   ∃ df, merge_predictions nan coercible dtA dtB A B = Ok df
         ∧ columns df = columns A ++ unique_cols B
         ∧ index df = None
         ∧ wf df)
  ∧ (rows A ≠ [] → rows B ≠ [] →
     (∃ k, k ∈ common_cols ∧ dtA k ≠ dtB k ∧ ¬ coercible (dtA k) (dtB k)) →
     merge_predictions nan coercible dtA dtB A B = Raise ValueError)
  ∧ (merge_predictions nan coercible dtA dtB A B = Raise ValueError
     ↔ ¬ joinable coercible dtA dtB A B).
Proof.
  intros (HnA & HlenA & _) (HnB & _ & _) HA HB Hdis.
  rewrite merge_predictions_disjoint by done. split_and!.
  - intros Hj. rewrite decide_True by done.
    eexists. split; [done|]. split; [done|].
    split; [done|]. split; [|split; [|done]]; cbn [columns rows].
    + apply NoDup_app. split; [done|]. split; [|by apply NoDup_filter].
      intros c. by apply unique_disjoint_columns.
    + apply Forall_forall. intros row (l & r & Hl & _ & _ & ->)%elem_of_joined_rows.
      rewrite !length_app, length_unique_of. f_equal. by eapply Forall_forall in HlenA.
  - intros HrA HrB (k & Hk & Hne & Hco). rewrite decide_False; [done|].
    intros [E|[E|Hall]]; [done|done|].
    eapply Forall_forall in Hall; [|done]. by destruct Hall.
  - case_decide; split; done.
Qed.

(** X12. With the same premises every row of the result holds, under
    each column of the first table, the cell of the row of the first
    table it comes from, and under each column of the second table the
    cell of the row of the second table: no value is changed. *)
Theorem merge_keeps_cells {V : Type} `{EqDecision V} (nan : V)
    {D : Type} `{EqDecision D} (coercible : D → D → bool) (dtA dtB : string → D) (A B df : DataFrame V) :
  wf A → wf B → has_keys A → has_keys B → unique_disjoint A B →
  merge_predictions nan coercible dtA dtB A B = Ok df →
  ∀ row, row ∈ rows df →
    ∃ l r, l ∈ rows A ∧ r ∈ rows B
           ∧ (∀ c, c ∈ columns A →
                   cell nan (columns df) row c = cell nan (columns A) l c)
           ∧ (∀ c, c ∈ columns B →
                   cell nan (columns df) row c = cell nan (columns B) r c).
Proof.
  intros (HnA & HlenA & _) (HnB & _ & _) HA HB Hdis Hdf.
  rewrite merge_predictions_disjoint in Hdf by done.
  case_decide; [|done]. injection Hdf as <-.
  cbn [columns rows]. intros row (l & r & Hl & Hr & Hk & ->)%elem_of_joined_rows.
  assert (length l = length (columns A)) as Hlen by by eapply Forall_forall in HlenA.
  exists l, r. split; [done|]. split; [done|].
  assert (∀ c, c ∈ columns A →
            cell nan (columns A ++ unique_cols B) (l ++ unique_of nan B r) c
            = cell nan (columns A) l c) as Hleft.
  { intros c Hc. by apply cell_app_l. }
  split; [done|]. intros c Hc.
  destruct (decide (c ∈ common_cols)) as [Hkey|Hkey].
  - rewrite Hleft by by apply HA. by apply keys_of_eq_iff.
  - assert (c ∈ unique_cols B) as Hu by by apply elem_of_unique_cols.
    rewrite cell_app_r; [by apply cell_picked| |done].
    intros HcA. by eapply unique_disjoint_columns.
Qed.

Section MergeCounts.
Context {V : Type} `{EqDecision V} (nan : V).
Implicit Types A B : DataFrame V.

(** The number of pairs of a row of [l1] and a row of [l2] that [P]
    relates, counted along [l1]. *)
Lemma length_pairs {X Y Z} (P : X → Y → Prop) `{!∀ x y, Decision (P x y)}
    (f : X → Y → list Z) (l1 : list X) (l2 : list Y) :
  (∀ x y, length (f x y) = 1%nat) →
  length (x ← l1; y ← filter (P x) l2; f x y)
  = sum_list ((fun x => length (filter (P x) l2)) <$> l1).
Proof.
  intros Hf. induction l1 as [|x l1 IH]; [done|].
  rewrite bind_cons, length_app, IH, fmap_cons. simpl. f_equal.
  apply length_bind_one, Forall_forall. intros y _. apply Hf.
Qed.

Lemma sum_filter_swap {X Y} (P : X → Y → Prop) `{!∀ x y, Decision (P x y)}
    (l1 : list X) (l2 : list Y) :
  sum_list ((fun x => length (filter (P x) l2)) <$> l1)
  = sum_list ((fun y => length (filter (fun x => P x y) l1)) <$> l2).
Proof.
  induction l1 as [|x l1 IH].
  - simpl. induction l2 as [|y l2 IH2]; [done|]. rewrite fmap_cons. exact IH2.
  - rewrite fmap_cons. simpl. rewrite IH. clear IH.
    induction l2 as [|y l2 IH2]; [done|].
    rewrite !fmap_cons, !filter_cons. simpl.
    destruct (decide (P x y)); simpl; rewrite <- IH2; lia.
Qed.

Lemma sum_list_bound {X} (g : X → nat) (n : nat) (l : list X) :
  (∀ x, x ∈ l → g x ≤ n)%nat → (sum_list (g <$> l) ≤ length l * n)%nat.
Proof.
  induction l as [|x l IH]; intros Hg; [done|]. rewrite fmap_cons. simpl.
  assert (g x ≤ n)%nat by (apply Hg; by left).
  assert (sum_list (g <$> l) ≤ length l * n)%nat by (apply IH; intros; apply Hg; by right).
  lia.
Qed.

Lemma length_filter_key_le {X K} `{EqDecision K} (f : X → K) (k : K) (l : list X) :
  NoDup (f <$> l) → (length (filter (fun x => k = f x) l) ≤ 1)%nat.
Proof.
  intros Hnodup. destruct (decide (k ∈ f <$> l)) as [Hk|Hk].
  - by rewrite length_filter_key.
  - rewrite filter_none; [simpl; lia|]. apply Forall_forall. intros x Hx ->.
    apply Hk. by apply list_elem_of_fmap_2.
Qed.

Lemma joined_rows_count A B :
  length (joined_rows nan A B)
  = sum_list ((fun l => length (filter (fun r => keys_of nan A l = keys_of nan B r)
                                       (rows B))) <$> rows A).
Proof. unfold joined_rows. by apply length_pairs. Qed.

Lemma joined_rows_swap A B :
  length (joined_rows nan A B) = length (joined_rows nan B A).
Proof.
  rewrite !joined_rows_count.
  rewrite (sum_filter_swap (fun l r => keys_of nan A l = keys_of nan B r)).
  f_equal. apply list_fmap_ext. intros _ r _. f_equal.
  apply list_filter_iff. intros l. split; by intros ->.
Qed.

Lemma joined_rows_le_left A B :
  NoDup (keys_of nan B <$> rows B) →
  (length (joined_rows nan A B) ≤ length (rows A))%nat.
Proof.
  intros Hnodup. rewrite joined_rows_count.
  etrans; [apply (sum_list_bound _ 1)|lia].
  intros l _. by apply length_filter_key_le.
Qed.

End MergeCounts.

(** X13. The result never has more rows than the product of the two row
    counts; when no key tuple occurs twice in one of the tables it has at
    most as many rows as the other one, and when that holds for both, at
    most as many as the smaller. *)
Theorem merge_row_bounds {V : Type} `{EqDecision V} (nan : V)
    {D : Type} `{EqDecision D} (coercible : D → D → bool) (dtA dtB : string → D) (A B df : DataFrame V) :
  merge_predictions nan coercible dtA dtB A B = Ok df →
  (length (rows df) ≤ length (rows A) * length (rows B))%nat
  ∧ (NoDup (keys_of nan B <$> rows B) → length (rows df) ≤ length (rows A))%nat
  ∧ (NoDup (keys_of nan A <$> rows A) → length (rows df) ≤ length (rows B))%nat
  ∧ (NoDup (keys_of nan A <$> rows A) → NoDup (keys_of nan B <$> rows B) →
     length (rows df) ≤ length (rows A) `min` length (rows B))%nat.
Proof.
  intros (_ & _ & _ & -> & _)%merge_predictions_Ok.
  assert (NoDup (keys_of nan A <$> rows A) →
          length (joined_rows nan A B) ≤ length (rows B))%nat as Hright.
  { intros Hn. rewrite joined_rows_swap. by apply joined_rows_le_left. }
  split_and!.
  - rewrite joined_rows_count. apply sum_list_bound. intros l _. apply length_filter.
  - apply joined_rows_le_left.
  - done.
  - intros HnA HnB. apply Nat.min_glb; [by apply joined_rows_le_left|by apply Hright].
Qed.

(** X14. Which of the two tables is read first does not change the
    number of rows of the result. *)
Theorem merge_row_count_symmetric {V : Type} `{EqDecision V} (nan : V)
    {D : Type} `{EqDecision D} (coercible : D → D → bool) (dtA dtB : string → D)
    (A B df df' : DataFrame V) :
  merge_predictions nan coercible dtA dtB A B = Ok df → merge_predictions nan coercible dtB dtA B A = Ok df' →
  length (rows df) = length (rows df').
Proof.
  intros (_ & _ & _ & -> & _)%merge_predictions_Ok
         (_ & _ & _ & -> & _)%merge_predictions_Ok.
  apply joined_rows_swap.
Qed.

Lemma not_has_keys_check {V : Type} (df : DataFrame V) :
  bool_decide (common_cols ⊆ columns df) = false → ¬ has_keys df.
Proof. by intros H1%bool_decide_eq_false. Qed.

(** X15. Of two tables that lack key columns the second is found out
    first: the [KeyError] then lists every key column that the second
    table lacks, in the order of the key list, whatever the first table
    has. When only the first table lacks key columns the [KeyError]
    names the first of them in that order. *)
Theorem merge_key_error_labels {V : Type} `{EqDecision V} (nan : V)
    {D : Type} `{EqDecision D} (coercible : D → D → bool) (dtA dtB : string → D) (A B : DataFrame V) :
  (¬ has_keys B →
   merge_predictions nan coercible dtA dtB A B
   = Raise (KeyError (filter (fun k => k ∉ columns B) common_cols)))
  ∧ (has_keys B → ¬ has_keys A →
     ∃ k rest, filter (fun k => k ∉ columns A) common_cols = k :: rest
               ∧ merge_predictions nan coercible dtA dtB A B = Raise (KeyError [k])).
Proof.
  split.
  - intros HB. unfold merge_predictions, getitem. rewrite filter_app.
    rewrite (filter_none _ (unique_cols B)), app_nil_r; cycle 1.
    { apply Forall_forall. intros c [_ Hc]%elem_of_unique_cols Hn. by apply Hn. }
    rewrite filter_keys_nil in HB.
    by destruct (filter (fun k => k ∉ columns B) common_cols).
  - intros HB HA. rewrite merge_predictions_unfold by done.
    rewrite filter_keys_nil in HA.
    destruct (filter (fun k => k ∉ columns A) common_cols) as [|k rest]; [done|].
    by exists k, rest.
Qed.

Lemma merge_key_error_labels_witness :
  ¬ has_keys SampleTables.linguistic_short
  ∧ ¬ has_keys Sample.acoustic_no_text
  ∧ has_keys Sample.acoustic
  ∧ merge_predictions 0 Sample.coercible Sample.numbers Sample.numbers SampleTables.linguistic_short Sample.acoustic_no_text
    = Raise (KeyError ["text"])
  ∧ merge_predictions 0 Sample.coercible Sample.numbers Sample.numbers Sample.acoustic_no_text SampleTables.linguistic_short
    = Raise (KeyError ["start"; "text"])
  ∧ merge_predictions 0 Sample.coercible Sample.numbers Sample.numbers SampleTables.linguistic_short Sample.acoustic
    = Raise (KeyError ["start"]).
Proof.
  assert (¬ has_keys SampleTables.linguistic_short) as H1
    by (apply not_has_keys_check; vm_compute; reflexivity).
  assert (¬ has_keys Sample.acoustic_no_text) as H2
    by (apply not_has_keys_check; vm_compute; reflexivity).
  assert (has_keys Sample.acoustic) as H3
    by (apply has_keys_check; vm_compute; reflexivity).
  split; [exact H1|]. split; [exact H2|]. split; [exact H3|].
  split; [|split].
  - exact (proj1 (merge_key_error_labels 0 Sample.coercible Sample.numbers Sample.numbers SampleTables.linguistic_short
                    Sample.acoustic_no_text) H2).
  - exact (proj1 (merge_key_error_labels 0 Sample.coercible Sample.numbers Sample.numbers Sample.acoustic_no_text
                    SampleTables.linguistic_short) H1).
  - destruct (proj2 (merge_key_error_labels 0 Sample.coercible Sample.numbers Sample.numbers SampleTables.linguistic_short
                       Sample.acoustic) H3 H1) as (k & rest & Hk & ->).
    vm_compute in Hk. by injection Hk as <- _.
Defined.

(** X16. A column outside the keys that both tables have is in the
    result twice, with [_x] after the label for the first table and [_y]
    for the second; the result has the columns of the first table and
    the other columns of the second, none left out. *)
Theorem merge_overlap_suffixes {V : Type} `{EqDecision V} (nan : V)
    {D : Type} `{EqDecision D} (coercible : D → D → bool) (dtA dtB : string → D)
    (A B df : DataFrame V) (c : string) :
  c ∈ unique_cols A → c ∈ unique_cols B →
  merge_predictions nan coercible dtA dtB A B = Ok df →
  c +:+ "_x" ∈ columns df
  ∧ c +:+ "_y" ∈ columns df
  ∧ length (columns df) = (length (columns A) + length (unique_cols B))%nat.
Proof.
  intros [HcA HcA']%elem_of_unique_cols HcB
         (_ & _ & _ & _ & (to_rename & -> & Hren) & _)%merge_predictions_Ok.
  assert (c ∈ to_rename) as Hc.
  { rewrite Hren. by apply (list_elem_of_filter (fun c => c ∈ unique_cols B)). }
  split_and!.
  - apply elem_of_app. left. apply list_elem_of_fmap. exists c. split; [|done].
    unfold renamer. by rewrite decide_True.
  - apply elem_of_app. right. apply list_elem_of_fmap. exists c. split; [|done].
    unfold renamer. by rewrite decide_True.
  - by rewrite length_app, !length_fmap.
Qed.

Lemma merge_overlap_suffixes_witness :
  "score" ∈ unique_cols SampleTables.left_score
  ∧ "score" ∈ unique_cols SampleTables.right_score
  ∧ merge_predictions 0 Sample.coercible Sample.numbers Sample.numbers SampleTables.left_score SampleTables.right_score
    = Ok (mkDF None (common_cols ++ ["score_x"; "score_y"; "arousal"])
               [ [1; 0; 5; 7; 1; 34; 1991; 5; 0; 11; 3; 6; 8] ])
  ∧ "score" +:+ "_x" ∈ common_cols ++ ["score_x"; "score_y"; "arousal"].
Proof.
  assert ("score" ∈ unique_cols SampleTables.left_score) as H1
    by (apply (bool_decide_unpack _); vm_compute; reflexivity).
  assert ("score" ∈ unique_cols SampleTables.right_score) as H2
    by (apply (bool_decide_unpack _); vm_compute; reflexivity).
  assert (merge_predictions 0 Sample.coercible Sample.numbers Sample.numbers SampleTables.left_score SampleTables.right_score
          = Ok (mkDF None (common_cols ++ ["score_x"; "score_y"; "arousal"])
                     [ [1; 0; 5; 7; 1; 34; 1991; 5; 0; 11; 3; 6; 8] ])) as H3
    by (vm_compute; reflexivity).
  split; [exact H1|]. split; [exact H2|]. split; [exact H3|].
  exact (proj1 (merge_overlap_suffixes 0 Sample.coercible Sample.numbers Sample.numbers _ _ _ "score" H1 H2 H3)).
Defined.

(** X17. A table without rows is no error for the merger: when both
    tables have the keys and share no other column, and one of them has
    no row, the result has no row and the columns of both. *)
Theorem merge_without_rows {V : Type} `{EqDecision V} (nan : V)
    {D : Type} `{EqDecision D} (coercible : D → D → bool) (dtA dtB : string → D) (A B : DataFrame V) :
  wf A → wf B → has_keys A → has_keys B → unique_disjoint A B →
  rows A = [] ∨ rows B = [] →
  merge_predictions nan coercible dtA dtB A B = Ok (mkDF None (columns A ++ unique_cols B) []).
Proof.
  intros (HnA & _ & _) (HnB & _ & _) HA HB Hdis Hempty.
  rewrite merge_predictions_disjoint, decide_True;
    [|unfold joinable; tauto|done..]. do 2 f_equal.
  apply joined_rows_disjoint. intros l r Hl Hr.
  destruct Hempty as [E|E]; [rewrite E in Hl; by apply elem_of_nil in Hl|].
  rewrite E in Hr. by apply elem_of_nil in Hr.
Qed.

Lemma merge_without_rows_witness :
  wf Sample.linguistic ∧ wf SampleTables.acoustic_empty
  ∧ has_keys Sample.linguistic ∧ has_keys SampleTables.acoustic_empty
  ∧ unique_disjoint Sample.linguistic SampleTables.acoustic_empty
  ∧ rows SampleTables.acoustic_empty = []
  ∧ merge_predictions 0 Sample.coercible Sample.numbers Sample.numbers Sample.linguistic SampleTables.acoustic_empty
    = Ok (mkDF None (columns Sample.linguistic
                     ++ unique_cols SampleTables.acoustic_empty) []).
Proof.
  assert (wf Sample.linguistic) as H1 by (apply wf_check; vm_compute; reflexivity).
  assert (wf SampleTables.acoustic_empty) as H2
    by (apply wf_check; vm_compute; reflexivity).
  assert (has_keys Sample.linguistic) as H3
    by (apply has_keys_check; vm_compute; reflexivity).
  assert (has_keys SampleTables.acoustic_empty) as H4
    by (apply has_keys_check; vm_compute; reflexivity).
  assert (unique_disjoint Sample.linguistic SampleTables.acoustic_empty) as H5
    by (apply unique_disjoint_check; vm_compute; reflexivity).
  split; [exact H1|]. split; [exact H2|]. split; [exact H3|]. split; [exact H4|].
  split; [exact H5|]. split; [reflexivity|].
  exact (merge_without_rows 0 Sample.coercible Sample.numbers Sample.numbers _ _ H1 H2 H3 H4 H5 (or_intror eq_refl)).
Defined.

Lemma merge_result_schema_witness :
  wf Sample.linguistic ∧ wf Sample.acoustic
  ∧ has_keys Sample.linguistic ∧ has_keys Sample.acoustic
  ∧ unique_disjoint Sample.linguistic Sample.acoustic
  ∧ joinable Sample.coercible Sample.numbers Sample.numbers
             Sample.linguistic Sample.acoustic
  ∧ (∃ df, merge_predictions 0 Sample.coercible Sample.numbers Sample.numbers
             Sample.linguistic Sample.acoustic = Ok df
           ∧ columns df = columns Sample.linguistic ++ unique_cols Sample.acoustic
           ∧ index df = None
           ∧ wf df)
  ∧ merge_predictions 0 Sample.coercible Sample.numbers Sample.words
      Sample.linguistic Sample.acoustic = Raise ValueError.
Proof.
  assert (wf Sample.linguistic) as H1 by (apply wf_check; vm_compute; reflexivity).
  assert (wf Sample.acoustic) as H2 by (apply wf_check; vm_compute; reflexivity).
  assert (has_keys Sample.linguistic) as H3
    by (apply has_keys_check; vm_compute; reflexivity).
  assert (has_keys Sample.acoustic) as H4
    by (apply has_keys_check; vm_compute; reflexivity).
  assert (unique_disjoint Sample.linguistic Sample.acoustic) as H5
    by (apply unique_disjoint_check; vm_compute; reflexivity).
  assert (joinable Sample.coercible Sample.numbers Sample.numbers
            Sample.linguistic Sample.acoustic) as H6.
  { right. right. apply Forall_forall. intros k _. by left. }
  split; [exact H1|]. split; [exact H2|]. split; [exact H3|]. split; [exact H4|].
  split; [exact H5|]. split; [exact H6|]. split.
  - exact (proj1 (merge_result_schema 0 Sample.coercible Sample.numbers Sample.numbers
                    Sample.linguistic Sample.acoustic H1 H2 H3 H4 H5) H6).
  - apply (proj1 (proj2 (merge_result_schema 0 Sample.coercible Sample.numbers
                           Sample.words Sample.linguistic Sample.acoustic
                           H1 H2 H3 H4 H5))).
    + discriminate.
    + discriminate.
    + exists "text". split; [|split].
      * apply (bool_decide_unpack _). vm_compute; reflexivity.
      * discriminate.
      * vm_compute. exact (fun H => H).
Defined.

Lemma merge_keeps_cells_witness :
  wf Sample.linguistic ∧ wf Sample.acoustic
  ∧ has_keys Sample.linguistic ∧ has_keys Sample.acoustic
  ∧ unique_disjoint Sample.linguistic Sample.acoustic
  ∧ merge_predictions 0 Sample.coercible Sample.numbers Sample.numbers Sample.linguistic Sample.acoustic
    = Ok (mkDF None (common_cols ++ ["valence"; "arousal"])
               [ [1; 0; 5; 7; 1; 34; 1991; 5; 0; 11; 3; 8];
                 [1; 5; 9; 7; 1; 34; 1991; 4; 0; 12; 4; 9] ])
  ∧ ∃ l r, l ∈ rows Sample.linguistic ∧ r ∈ rows Sample.acoustic
           ∧ (∀ c, c ∈ columns Sample.linguistic →
                   cell 0 (common_cols ++ ["valence"; "arousal"])
                        [1; 0; 5; 7; 1; 34; 1991; 5; 0; 11; 3; 8] c
                   = cell 0 (columns Sample.linguistic) l c)
           ∧ (∀ c, c ∈ columns Sample.acoustic →
                   cell 0 (common_cols ++ ["valence"; "arousal"])
                        [1; 0; 5; 7; 1; 34; 1991; 5; 0; 11; 3; 8] c
                   = cell 0 (columns Sample.acoustic) r c).
Proof.
  assert (wf Sample.linguistic) as H1 by (apply wf_check; vm_compute; reflexivity).
  assert (wf Sample.acoustic) as H2 by (apply wf_check; vm_compute; reflexivity).
  assert (has_keys Sample.linguistic) as H3
    by (apply has_keys_check; vm_compute; reflexivity).
  assert (has_keys Sample.acoustic) as H4
    by (apply has_keys_check; vm_compute; reflexivity).
  assert (unique_disjoint Sample.linguistic Sample.acoustic) as H5
    by (apply unique_disjoint_check; vm_compute; reflexivity).
  assert (merge_predictions 0 Sample.coercible Sample.numbers Sample.numbers Sample.linguistic Sample.acoustic
          = Ok (mkDF None (common_cols ++ ["valence"; "arousal"])
                     [ [1; 0; 5; 7; 1; 34; 1991; 5; 0; 11; 3; 8];
                       [1; 5; 9; 7; 1; 34; 1991; 4; 0; 12; 4; 9] ])) as H6
    by (vm_compute; reflexivity).
  split; [exact H1|]. split; [exact H2|]. split; [exact H3|]. split; [exact H4|].
  split; [exact H5|]. split; [exact H6|].
  apply (merge_keeps_cells 0 Sample.coercible Sample.numbers Sample.numbers Sample.linguistic Sample.acoustic _ H1 H2 H3 H4 H5 H6).
  apply elem_of_cons. left. reflexivity.
Defined.

Lemma merge_row_bounds_witness :
  merge_predictions 0 Sample.coercible Sample.numbers Sample.numbers Sample.linguistic_twice Sample.acoustic_twice
  = Ok (mkDF None (common_cols ++ ["valence"; "arousal"])
             [ [1; 0; 5; 7; 1; 34; 1991; 5; 0; 11; 3; 8];
               [1; 0; 5; 7; 1; 34; 1991; 5; 0; 11; 3; 9];
               [1; 0; 5; 7; 1; 34; 1991; 5; 0; 11; 4; 8];
               [1; 0; 5; 7; 1; 34; 1991; 5; 0; 11; 4; 9] ])
  ∧ (4 ≤ length (rows Sample.linguistic_twice) * length (rows Sample.acoustic_twice))%nat.
Proof.
  assert (merge_predictions 0 Sample.coercible Sample.numbers Sample.numbers Sample.linguistic_twice Sample.acoustic_twice
          = Ok (mkDF None (common_cols ++ ["valence"; "arousal"])
                     [ [1; 0; 5; 7; 1; 34; 1991; 5; 0; 11; 3; 8];
                       [1; 0; 5; 7; 1; 34; 1991; 5; 0; 11; 3; 9];
                       [1; 0; 5; 7; 1; 34; 1991; 5; 0; 11; 4; 8];
                       [1; 0; 5; 7; 1; 34; 1991; 5; 0; 11; 4; 9] ])) as H1
    by (vm_compute; reflexivity).
  split; [exact H1|].
  exact (proj1 (merge_row_bounds 0 Sample.coercible Sample.numbers Sample.numbers _ _ _ H1)).
Defined.

Lemma merge_row_count_symmetric_witness :
  merge_predictions 0 Sample.coercible Sample.numbers Sample.numbers Sample.linguistic Sample.acoustic
  = Ok (mkDF None (common_cols ++ ["valence"; "arousal"])
             [ [1; 0; 5; 7; 1; 34; 1991; 5; 0; 11; 3; 8];
               [1; 5; 9; 7; 1; 34; 1991; 4; 0; 12; 4; 9] ])
  ∧ merge_predictions 0 Sample.coercible Sample.numbers Sample.numbers Sample.acoustic Sample.linguistic
    = Ok (mkDF None (["arousal"] ++ common_cols ++ ["valence"])
               [ [8; 1; 0; 5; 7; 1; 34; 1991; 5; 0; 11; 3];
                 [9; 1; 5; 9; 7; 1; 34; 1991; 4; 0; 12; 4] ])
  ∧ length [ [1; 0; 5; 7; 1; 34; 1991; 5; 0; 11; 3; 8];
             [1; 5; 9; 7; 1; 34; 1991; 4; 0; 12; 4; 9] ]
    = length [ [8; 1; 0; 5; 7; 1; 34; 1991; 5; 0; 11; 3];
               [9; 1; 5; 9; 7; 1; 34; 1991; 4; 0; 12; 4] ].
Proof.
  assert (merge_predictions 0 Sample.coercible Sample.numbers Sample.numbers Sample.linguistic Sample.acoustic
          = Ok (mkDF None (common_cols ++ ["valence"; "arousal"])
                     [ [1; 0; 5; 7; 1; 34; 1991; 5; 0; 11; 3; 8];
                       [1; 5; 9; 7; 1; 34; 1991; 4; 0; 12; 4; 9] ])) as H1
    by (vm_compute; reflexivity).
  assert (merge_predictions 0 Sample.coercible Sample.numbers Sample.numbers Sample.acoustic Sample.linguistic
          = Ok (mkDF None (["arousal"] ++ common_cols ++ ["valence"])
                     [ [8; 1; 0; 5; 7; 1; 34; 1991; 5; 0; 11; 3];
                       [9; 1; 5; 9; 7; 1; 34; 1991; 4; 0; 12; 4] ])) as H2
    by (vm_compute; reflexivity).
  split; [exact H1|]. split; [exact H2|].
  exact (merge_row_count_symmetric 0 Sample.coercible Sample.numbers Sample.numbers _ _ _ _ H1 H2).
Defined.

Section RowExtras.
Import Grammar.

(** X18. Every row of a returned table is consistent in itself: the
    speaker is the gender code, an underscore and the digits of the
    identifier as written; the gender is the one of that code; the birth
    year is at most 9999 and the age is 2025 minus it; the emotion is
    ["unknown"]; the transcription is the one read for an audio file of
    the directory with these fields. *)
Theorem table_rows_consistent data_path d out df out' :
  process_database data_path (Dir d) out = (Ok df, out') →
  ∀ row, row ∈ rows df →
    ∃ y g n ext rest birth_year,
      fields_ok y g n ext
      ∧ text y g n ext rest ∈ audio_files d
      ∧ int (Some y) = Ok birth_year ∧ 0 ≤ birth_year ≤ 9999
      ∧ row = [VStr (String g "" +:+ "_" +:+ n); VStr (gender_of g);
               VInt (2025 - birth_year); VInt birth_year; VStr "unknown";
               VStr (transcription_of d (text y g n ext rest))].
Proof.
  intros (d' & [= <-] & _ & -> & _)%process_database_Ok row.
  intros (f & -> & [Hacc Hf]%elem_of_kept)%list_elem_of_fmap.
  destruct (accepted_text f Hacc) as (y & g & n & ext & rest & Hok & ->).
  destruct (parse_filename_text y g n ext rest Hok) as (b & Hb & Hp).
  exists y, g, n, ext, rest, b. split; [done|]. split; [done|]. split; [done|].
  split.
  - pose proof Hok as (Hy & Hdy & _).
    by destruct (int_four_digits y b Hy Hdy Hb) as (? & ? & ? & ? & ? & ? & ? & ? & _
                                                    & _ & _ & _ & _ & _ & ?).
  - unfold row_of, fields_of. by rewrite Hp.
Qed.

Lemma table_rows_consistent_witness :
  process_database Sample.data (Dir Sample.corpus) []
  = (Ok (table Sample.data Sample.corpus),
     ["Found 3 audio files";
      "Warning: No transcription file found for G_1988_F_07_st.wav";
      "Warning: Could not parse filename: random_file.WAV"])
  ∧ ∀ row, row ∈ rows (table Sample.data Sample.corpus) →
      ∃ y g n ext rest birth_year,
        fields_ok y g n ext
        ∧ text y g n ext rest ∈ audio_files Sample.corpus
        ∧ int (Some y) = Ok birth_year ∧ 0 ≤ birth_year ≤ 9999
        ∧ row = [VStr (String g "" +:+ "_" +:+ n); VStr (gender_of g);
                 VInt (2025 - birth_year); VInt birth_year; VStr "unknown";
                 VStr (transcription_of Sample.corpus (text y g n ext rest))].
Proof.
  split; [vm_compute; reflexivity|].
  apply (table_rows_consistent Sample.data Sample.corpus [] _
           ["Found 3 audio files";
            "Warning: No transcription file found for G_1988_F_07_st.wav";
            "Warning: Could not parse filename: random_file.WAV"]).
  vm_compute; reflexivity.
Defined.

(** X19. What follows the grammar in a file name reaches the table: an
    entry whose name begins with a text of the grammar and ends in
    [.WAV] or [.wav], with anything between, gets a row with the fields
    of that beginning. *)
Theorem loose_name_gets_row data_path d out y g n ext rest :
  examinable d → fields_ok y g n ext →
  is_Some (d !! text y g n ext rest) →
  endswith (text y g n ext rest) ".WAV" ∨ endswith (text y g n ext rest) ".wav" →
  ∃ out' df files i birth_year,
    process_database data_path (Dir d) out = (Ok df, out')
    ∧ index df = Some ("file", files)
    ∧ files !! i = Some (VStr (file_prefix data_path +:+ text y g n ext rest))
    ∧ int (Some y) = Ok birth_year
    ∧ rows df !! i
      = Some [VStr (String g "" +:+ "_" +:+ n); VStr (gender_of g);
              VInt (2025 - birth_year); VInt birth_year; VStr "unknown";
              VStr (transcription_of d (text y g n ext rest))].
Proof.
  intros Hex Hok Hd Hend.
  assert (text y g n ext rest ∈ kept d) as Hk.
  { apply elem_of_kept. split; [eexists; by apply re_match_text|].
    by apply elem_of_audio_files. }
  destruct (process_database_kept data_path d _ out Hex Hk) as (out' & Hrun & _).
  destruct (table_lookup data_path d _ Hk) as (i & Hi & Hrow).
  destruct (parse_filename_text y g n ext rest Hok) as (b & Hb & Hp).
  exists out', (table data_path d), ((fun f => VStr (file_of data_path f)) <$> kept d),
         i, b.
  split_and!; try done.
  - by rewrite <- file_of_prefix.
  - rewrite Hrow. unfold row_of, fields_of. by rewrite Hp.
Qed.

Lemma loose_name_gets_row_witness :
  examinable (<["G_1991_M_26_st.WAVxyz.wav" := Readable ""]> Sample.corpus)
  ∧ fields_ok "1991" "M" "26" "WAV"
  ∧ is_Some ((<["G_1991_M_26_st.WAVxyz.wav" := Readable ""]> Sample.corpus)
               !! text "1991" "M" "26" "WAV" "xyz.wav")
  ∧ (endswith (text "1991" "M" "26" "WAV" "xyz.wav") ".WAV"
     ∨ endswith (text "1991" "M" "26" "WAV" "xyz.wav") ".wav")
  ∧ ∃ out' df files i birth_year,
      process_database Sample.data
        (Dir (<["G_1991_M_26_st.WAVxyz.wav" := Readable ""]> Sample.corpus)) []
      = (Ok df, out')
      ∧ index df = Some ("file", files)
      ∧ files !! i
        = Some (VStr (file_prefix Sample.data +:+ text "1991" "M" "26" "WAV" "xyz.wav"))
      ∧ int (Some "1991") = Ok birth_year
      ∧ rows df !! i
        = Some [VStr (String "M" "" +:+ "_" +:+ "26"); VStr (gender_of "M");
                VInt (2025 - birth_year); VInt birth_year; VStr "unknown";
                VStr (transcription_of
                        (<["G_1991_M_26_st.WAVxyz.wav" := Readable ""]> Sample.corpus)
                        (text "1991" "M" "26" "WAV" "xyz.wav"))].
Proof.
  assert (examinable (<["G_1991_M_26_st.WAVxyz.wav" := Readable ""]> Sample.corpus))
    as Hex by (apply examinable_check; vm_compute; reflexivity).
  assert (fields_ok "1991" "M" "26" "WAV") as Hok.
  { unfold fields_ok. split_and!; [reflexivity|exact I| |discriminate|exact I|].
    - apply elem_of_cons. by left.
    - apply elem_of_cons. by left. }
  assert (is_Some ((<["G_1991_M_26_st.WAVxyz.wav" := Readable ""]> Sample.corpus)
                     !! text "1991" "M" "26" "WAV" "xyz.wav")) as Hd
    by (apply (bool_decide_unpack _); vm_compute; reflexivity).
  assert (endswith (text "1991" "M" "26" "WAV" "xyz.wav") ".WAV"
          ∨ endswith (text "1991" "M" "26" "WAV" "xyz.wav") ".wav") as Hend
    by (right; vm_compute; exact I).
  split; [exact Hex|]. split; [exact Hok|]. split; [exact Hd|]. split; [exact Hend|].
  exact (loose_name_gets_row Sample.data _ [] "1991" "M" "26" "WAV" "xyz.wav"
           Hex Hok Hd Hend).
Defined.
End RowExtras.

(** * Scenarios of the documentation *)

Example parse_scenario_1 :
  parse_filename "G_1991_M_26_st.WAV"
  = Ok (Some "M_26", Some "male", Some 34, Some 1991).
Proof. vm_compute. reflexivity. Qed.

Example parse_scenario_2 :
  parse_filename "G_1988_F_07_st.wav"
  = Ok (Some "F_07", Some "female", Some 37, Some 1988).
Proof. vm_compute. reflexivity. Qed.

Example parse_scenario_3 :
  parse_filename "random_file.WAV" = Ok (None, None, None, None).
Proof. vm_compute. reflexivity. Qed.

(** The scanned directory of the scenarios: the recording without a
    transcript keeps its row, the other file name is skipped. *)
Example process_database_scenario :
  process_database Sample.data (Dir Sample.corpus) []
  = (Ok (mkDF (Some ("file", [VStr "data/G_1988_F_07_st.wav";
                              VStr "data/G_1991_M_26_st.WAV"]))
              ["speaker"; "gender"; "age"; "birth_year"; "emotion"; "transcription"]
              [ [VStr "F_07"; VStr "female"; VInt 37; VInt 1988;
                 VStr "unknown"; VStr ""];
                [VStr "M_26"; VStr "male"; VInt 34; VInt 1991;
                 VStr "unknown"; VStr "hello world"] ]),
     ["Found 3 audio files";
      "Warning: No transcription file found for G_1988_F_07_st.wav";
      "Warning: Could not parse filename: random_file.WAV"]).
Proof. vm_compute. reflexivity. Qed.

(** A directory whose only audio file has another name: the file is
    skipped with its diagnostic, and then no table can be built. *)
Example process_database_only_unparsed :
  process_database Sample.data (Dir {["random_file.WAV" := Readable ""]}) []
  = (Raise (KeyError ["file"; "speaker"; "gender"; "age"; "birth_year";
                      "transcription"]),
     ["Found 1 audio files"; "Warning: Could not parse filename: random_file.WAV"]).
Proof. vm_compute. reflexivity. Qed.

Example process_database_not_found :
  process_database Sample.data (NoStat ENOENT) [] = (Raise FileNotFoundError, []).
Proof. reflexivity. Qed.

(** A scanned path below a directory that may not be searched. *)
Example process_database_no_permission :
  process_database Sample.data (NoStat EACCES) [] = (Raise (OSError EACCES), []).
Proof. reflexivity. Qed.

(** The scanned directory itself may be listed but not searched: the
    run stops at the first recording. *)
Example process_database_unsearchable :
  process_database Sample.data (Dir Sample.corpus_unsearchable) []
  = (Raise (OSError EACCES), ["Found 3 audio files"]).
Proof. vm_compute. reflexivity. Qed.

Example merge_twice_scenario :
  merge_predictions 0 Sample.coercible Sample.numbers Sample.numbers Sample.linguistic_twice Sample.acoustic_twice
  = Ok (mkDF None (common_cols ++ ["valence"; "arousal"])
             [ [1; 0; 5; 7; 1; 34; 1991; 5; 0; 11; 3; 8];
               [1; 0; 5; 7; 1; 34; 1991; 5; 0; 11; 3; 9];
               [1; 0; 5; 7; 1; 34; 1991; 5; 0; 11; 4; 8];
               [1; 0; 5; 7; 1; 34; 1991; 5; 0; 11; 4; 9] ]).
Proof. vm_compute. reflexivity. Qed.
